(** * Fuel Split: the shared fuel cost ledger

    A shallow embedding of the ledger of the fuel cost tracker: the server
    actions [addMileageEntry], [undoLastEntry], [resetAndGetMessage] and
    [updateSettings], the store functions they call (lib/database.ts), the
    handlers of the page that calls them, and the page that keeps the same
    ledger in local storage (app/page.tsx).

    Modelling conventions.
    - Odometer readings and kilometre totals are integers (the store keeps
      them in INTEGER columns): a JavaScript number holding one is a [Z].
      The price per kilometre is a rational, [Q].
    - [undefined] and [null] are both [None]; the code itself tests them
      alike ([!= null], [??]).
    - [Date.now()] and the random identifier of [nowId()] are inputs of the
      operation that reads them: [now] and [id].
    - A server action runs against the store: it is a function from the
      store to a result and the store it leaves, so that an error thrown
      half way keeps what was written before it.
    - The actions and the local page name the two users Amit and Ori: the
      table [OTHER], [kmBy.Amit] and [kmBy.Ori]. The definitions that follow
      take these two identities and a [kmBy] with these two keys.
      lib/database.ts and the page that calls the actions name the second
      user John; what the actions compute on that name and on totals under
      the keys Amit and John is the subject of the module [Runtime], where
      identities are strings, [kmBy] is an object and a number can be NaN.
      The state row of the store model keeps the total of the second user in
      the column [john_km]. *)

From Stdlib Require Import ZArith QArith List String Ascii Bool Lia.
From Stdlib Require Import DecimalString DecimalPos DecimalZ.
From Stdlib Require Import Sorted.
Import ListNotations.
Local Open Scope string_scope.
Local Open Scope list_scope.
Local Open Scope Z_scope.

(** ** Data model *)

Inductive User : Type := Amit | Ori.

Definition User_eq_dec (u v : User) : {u = v} + {u <> v}.
Proof. decide equality. Defined.

(** [const OTHER: Record<User, User> = { Amit: "Ori", Ori: "Amit" }] *)
Definition OTHER (u : User) : User :=
  match u with
  | Amit => Ori
  | Ori => Amit
  end.

(** The table as the object it is at run time, keyed by name: a lookup
    gives [undefined] for a name that is not a key. *)
Definition userName (u : User) : string :=
  match u with
  | Amit => "Amit"
  | Ori => "Ori"
  end.

Definition OTHER_table : list (string * string) :=
  [("Amit", "Ori"); ("Ori", "Amit")].

Fixpoint lookup (key : string) (table : list (string * string)) : option string :=
  match table with
  | [] => None
  | (k, v) :: rest => if String.eqb k key then Some v else lookup key rest
  end.

Inductive EntryType : Type := init | entry | reset.

Definition EntryType_eqb (a b : EntryType) : bool :=
  match a, b with
  | init, init | entry, entry | reset, reset => true
  | _, _ => false
  end.

(** [Record<User, number>]: one total per identity. *)
Record KmBy : Type := mkKmBy { km_Amit : Z; km_Ori : Z }.

(** [kmBy[u]] *)
Definition kmOf (k : KmBy) (u : User) : Z :=
  match u with
  | Amit => km_Amit k
  | Ori => km_Ori k
  end.

(** [{ ...kmBy, [u]: v }] *)
Definition kmSet (k : KmBy) (u : User) (v : Z) : KmBy :=
  match u with
  | Amit => mkKmBy v (km_Ori k)
  | Ori => mkKmBy (km_Amit k) v
  end.

Record Snapshot : Type := mkSnapshot {
  snap_kmBy : KmBy;
  snap_pricePerKm : Q;
  snap_totalKm : Z;
  snap_totalAmount : Q
}.

Record Entry : Type := mkEntry {
  id : string;
  type : EntryType;
  timestamp : Z;
  reading : option Z;
  deltaKm : option Z;
  attributedTo : option User;
  enteredBy : option User;
  note : option string;
  snapshot : option Snapshot
}.

Record AppState : Type := mkAppState {
  version : Z;
  pricePerKm : Q;
  startingOdometer : Z;
  lastOdometer : option Z;
  kmBy : KmBy;
  history : list Entry;
  lastEnteredBy : option User
}.

(** The state of a new installation: the default of the page, and the row
    the schema script inserts. *)
Definition initialState : AppState :=
  {| version := 1;
     pricePerKm := 1 # 2;
     startingOdometer := 0;
     lastOdometer := None;
     kmBy := mkKmBy 0 0;
     history := [];
     lastEnteredBy := None |}.

(** ** Errors and results *)

Inductive ErrorKind : Type := InvalidReading | NothingToUndo | InvalidSettings.

(** [new Error(message)], tagged with the kind of failure it reports. *)
Record Error : Type := mkError { kind : ErrorKind; message_of : string }.

Inductive Result (A : Type) : Type :=
  | Ok (a : A)
  | Err (e : Error).
Arguments Ok {A} a.
Arguments Err {A} e.

(** ** The store (lib/database.ts) *)

(** A row of [fuel_split_entries]. *)
Record EntryRow : Type := mkEntryRow {
  row_id : string;
  row_type : EntryType;
  row_timestamp : Z;
  row_reading : option Z;
  row_delta_km : option Z;
  row_attributed_to : option User;
  row_entered_by : option User;
  row_note : option string;
  row_snapshot_data : option Snapshot
}.

(** The row of [fuel_split_state] the queries read and write: the one
    updated last. *)
Record StateRow : Type := mkStateRow {
  col_version : Z;
  price_per_km : Q;
  starting_odometer : Z;
  last_odometer : option Z;
  amit_km : Z;
  john_km : Z;
  last_entered_by : option User
}.

Record Database : Type := mkDatabase {
  fuel_split_state : StateRow;
  fuel_split_entries : list EntryRow
}.

Definition initialDatabase : Database :=
  {| fuel_split_state := mkStateRow 1 (1 # 2) 0 None 0 0 None;
     fuel_split_entries := [] |}.

(** A computation against the store. *)
Definition Action (A : Type) : Type := Database -> Result A * Database.

Definition ret {A} (a : A) : Action A := fun db => (Ok a, db).

Definition throw {A} (k : ErrorKind) (msg : string) : Action A :=
  fun db => (Err (mkError k msg), db).

Definition bind {A B} (m : Action A) (f : A -> Action B) : Action B :=
  fun db =>
    match m db with
    | (Ok a, db') => f a db'
    | (Err e, db') => (Err e, db')
    end.

Declare Scope action_scope.
Delimit Scope action_scope with action.
Notation "x <- m ;; k" := (bind m (fun x => k))
  (at level 61, m at next level, right associativity) : action_scope.
Notation "m ;; k" := (bind m (fun _ => k))
  (at level 61, right associativity) : action_scope.
Local Open Scope action_scope.

(** [x || null] on a number: 0 is falsy. *)
Definition orNull_number (x : option Z) : option Z :=
  match x with
  | Some n => if n =? 0 then None else Some n
  | None => None
  end.

(** [x || null] on a string: the empty string is falsy. *)
Definition orNull_string (x : option string) : option string :=
  match x with
  | Some s => if String.eqb s "" then None else Some s
  | None => None
  end.

(** [x || null] on an identity: both identities are non-empty strings. *)
Definition orNull_user (x : option User) : option User := x.

(** The VALUES of the INSERT of [addHistoryEntry]. *)
Definition entryRow (e : Entry) : EntryRow :=
  {| row_id := id e;
     row_type := type e;
     row_timestamp := timestamp e;
     row_reading := orNull_number (reading e);
     row_delta_km := orNull_number (deltaKm e);
     row_attributed_to := orNull_user (attributedTo e);
     row_entered_by := orNull_user (enteredBy e);
     row_note := orNull_string (note e);
     row_snapshot_data := snapshot e |}.

Definition hasRow (i : string) (rows : list EntryRow) : bool :=
  existsb (fun r => String.eqb (row_id r) i) rows.

(** [INSERT ... ON CONFLICT (id) DO NOTHING] *)
Definition addHistoryEntry (e : Entry) : Action unit :=
  fun db =>
    (Ok tt,
     if hasRow (id e) (fuel_split_entries db) then db
     else {| fuel_split_state := fuel_split_state db;
             fuel_split_entries := fuel_split_entries db ++ [entryRow e] |}).

(** [DELETE FROM fuel_split_entries WHERE id = entryId] *)
Definition removeHistoryEntry (entryId : string) : Action unit :=
  fun db =>
    (Ok tt,
     {| fuel_split_state := fuel_split_state db;
        fuel_split_entries :=
          filter (fun r => negb (String.eqb (row_id r) entryId))
                 (fuel_split_entries db) |}).

(** [UPDATE fuel_split_state SET ...]: every field but the history. The
    column [john_km] is bound to [kmBy.John] in lib/database.ts; here it
    takes the total of the second of the two identities of the actions. *)
Definition updateAppState (newState : AppState) : Action unit :=
  fun db =>
    (Ok tt,
     {| fuel_split_state :=
          {| col_version := version newState;
             price_per_km := pricePerKm newState;
             starting_odometer := startingOdometer newState;
             last_odometer := lastOdometer newState;
             amit_km := kmOf (kmBy newState) Amit;
             john_km := kmOf (kmBy newState) Ori;
             last_entered_by := lastEnteredBy newState |};
        fuel_split_entries := fuel_split_entries db |}).

(** The entry [getAppState] builds from a row. *)
Definition rowEntry (r : EntryRow) : Entry :=
  {| id := row_id r;
     type := row_type r;
     timestamp := row_timestamp r;
     reading := row_reading r;
     deltaKm := row_delta_km r;
     attributedTo := row_attributed_to r;
     enteredBy := row_entered_by r;
     note := row_note r;
     snapshot := row_snapshot_data r |}.




(** ** The server actions *)

Definition saveAppState (state : AppState) : Action unit := updateAppState state.
Definition addEntry (e : Entry) : Action unit := addHistoryEntry e.
Definition removeEntry (entryId : string) : Action unit := removeHistoryEntry entryId.

(** The last element of a list that satisfies [p]: the loops
    [for (let i = length - 1; i >= 0; i--) if (p(l[i])) { ...; break }]. *)
Fixpoint findLast {A} (p : A -> bool) (l : list A) : option A :=
  match l with
  | [] => None
  | x :: rest =>
      match findLast p rest with
      | Some y => Some y
      | None => if p x then Some x else None
      end
  end.

Definition isEntry (e : Entry) : bool := EntryType_eqb (type e) entry.
Definition isReset (e : Entry) : bool := EntryType_eqb (type e) reset.

(** [e.reading != null] *)
Definition hasReading (e : Entry) : bool :=
  match reading e with
  | Some _ => true
  | None => false
  end.

(** [x ?? 0] *)
Definition orZero (x : option Z) : Z :=
  match x with
  | Some n => n
  | None => 0
  end.

(** [{ ...newState, history: h }] *)
Definition withHistory (s : AppState) (h : list Entry) : AppState :=
  {| version := version s;
     pricePerKm := pricePerKm s;
     startingOdometer := startingOdometer s;
     lastOdometer := lastOdometer s;
     kmBy := kmBy s;
     history := h;
     lastEnteredBy := lastEnteredBy s |}.

Definition addMileageEntry (id : string) (now : Z)
    (sessionUser : User) (reading : Z) (currentState : AppState)
  : Action AppState :=
  p <- match lastOdometer currentState with
       | None =>
           (* First ever reading *)
           ret ({| id := id;
                   type := init;
                   timestamp := now;
                   reading := Some reading;
                   deltaKm := None;
                   attributedTo := None;
                   enteredBy := Some sessionUser;
                   note := Some "Initial reading set";
                   snapshot := None |},
                {| version := version currentState;
                   pricePerKm := pricePerKm currentState;
                   startingOdometer := reading;
                   lastOdometer := Some reading;
                   kmBy := kmBy currentState;
                   history := history currentState;
                   lastEnteredBy := Some sessionUser |})
       | Some last =>
           (* Normal entry *)
           let delta := reading - last in
           if delta <? 0 then
             throw InvalidReading "Mileage cannot decrease. Please check the value."
           else if delta =? 0 then
             ret ({| id := id;
                     type := entry;
                     timestamp := now;
                     reading := Some reading;
                     deltaKm := Some 0;
                     attributedTo := Some (OTHER sessionUser);
                     enteredBy := Some sessionUser;
                     note := Some "No change in km";
                     snapshot := None |},
                  {| version := version currentState;
                     pricePerKm := pricePerKm currentState;
                     startingOdometer := startingOdometer currentState;
                     lastOdometer := Some reading;
                     kmBy := kmBy currentState;
                     history := history currentState;
                     lastEnteredBy := Some sessionUser |})
           else
             let creditedUser := OTHER sessionUser in
             ret ({| id := id;
                     type := entry;
                     timestamp := now;
                     reading := Some reading;
                     deltaKm := Some delta;
                     attributedTo := Some creditedUser;
                     enteredBy := Some sessionUser;
                     note := None;
                     snapshot := None |},
                  {| version := version currentState;
                     pricePerKm := pricePerKm currentState;
                     startingOdometer := startingOdometer currentState;
                     lastOdometer := Some reading;
                     kmBy := kmSet (kmBy currentState) creditedUser
                               (kmOf (kmBy currentState) creditedUser + delta);
                     history := history currentState;
                     lastEnteredBy := Some sessionUser |})
       end ;;
  let newEntry := fst p in
  let newState := snd p in
  (* Save to database *)
  addEntry newEntry ;;
  saveAppState newState ;;
  (* Return updated state with new entry in history *)
  ret (withHistory newState (history newState ++ [newEntry])).

Definition undoLastEntry (currentState : AppState) : Action AppState :=
  (* Find last entry *)
  match findLast isEntry (history currentState) with
  | None => throw NothingToUndo "No entry to undo"
  | Some lastEntry =>
      (* Remove from database *)
      removeEntry (id lastEntry) ;;
      (* Update state *)
      let newHistory :=
        filter (fun e => negb (String.eqb (id e) (id lastEntry)))
               (history currentState) in
      (* Find prior reading to restore lastOdometer *)
      let restoreTo :=
        match findLast hasReading newHistory with
        | Some e => reading e
        | None => None
        end in
      let newKmBy :=
        match attributedTo lastEntry with
        | Some a =>
            if 0 <? orZero (deltaKm lastEntry) then
              kmSet (kmBy currentState) a
                (Z.max 0 (kmOf (kmBy currentState) a - orZero (deltaKm lastEntry)))
            else kmBy currentState
        | None => kmBy currentState
        end in
      let newState :=
        {| version := version currentState;
           pricePerKm := pricePerKm currentState;
           startingOdometer := startingOdometer currentState;
           lastOdometer := restoreTo;
           kmBy := newKmBy;
           history := newHistory;
           lastEnteredBy := lastEnteredBy currentState |} in
      saveAppState newState ;;
      ret newState
  end.

(** [`${n}`] for an integer [n]. *)
Definition numberToString (n : Z) : string := NilZero.string_of_int (Z.to_int n).

Definition newline : string := String (ascii_of_nat 10) EmptyString.

(** [.filter(Boolean)] on an array of strings and [undefined]: drops
    [undefined] and the empty string. *)
Fixpoint filterBoolean (l : list (option string)) : list string :=
  match l with
  | [] => []
  | None :: rest => filterBoolean rest
  | Some s :: rest =>
      if String.eqb s "" then filterBoolean rest else s :: filterBoolean rest
  end.

(** [{ message, newState }] *)
Record ResetResult : Type := mkResetResult { message : string; newState : AppState }.

Section Formatting.

(** [formatCurrency], which calls [Intl.NumberFormat], and
    [new Date(ts).toLocaleString()] belong to the runtime. *)
Variable formatCurrency : Q -> string.
Variable toLocaleString : Z -> string.

Definition resetAndGetMessage (id : string) (now : Z) (currentState : AppState)
  : Action ResetResult :=
  let totalKm := kmOf (kmBy currentState) Amit + kmOf (kmBy currentState) Ori in
  let totalAmount := (inject_Z totalKm * pricePerKm currentState)%Q in
  let amounts_Amit := (inject_Z (kmOf (kmBy currentState) Amit) * pricePerKm currentState)%Q in
  let amounts_Ori := (inject_Z (kmOf (kmBy currentState) Ori) * pricePerKm currentState)%Q in
  let ts := now in
  let dateStr := toLocaleString ts in
  let message :=
    String.concat newline (filterBoolean
      [ Some ("Fuel split reset (" ++ dateStr ++ ")")%string;
        Some ("Price per km: " ++ formatCurrency (pricePerKm currentState))%string;
        Some "Totals since last reset:";
        Some ("- Amit: " ++ numberToString (kmOf (kmBy currentState) Amit)
              ++ " km => " ++ formatCurrency amounts_Amit)%string;
        Some ("- Ori: " ++ numberToString (kmOf (kmBy currentState) Ori)
              ++ " km => " ++ formatCurrency amounts_Ori)%string;
        Some ("Total: " ++ numberToString totalKm
              ++ " km => " ++ formatCurrency totalAmount)%string;
        match lastOdometer currentState with
        | Some last => Some ("Odometer: " ++ numberToString last ++ " km")%string
        | None => None
        end;
        Some "Please settle accordingly." ]) in
  (* Create reset entry *)
  let resetEntry :=
    {| id := id;
       type := reset;
       timestamp := ts;
       reading := None;
       deltaKm := None;
       attributedTo := None;
       enteredBy := None;
       note := Some "Reset & share";
       snapshot := Some {| snap_kmBy := kmBy currentState;
                           snap_pricePerKm := pricePerKm currentState;
                           snap_totalKm := totalKm;
                           snap_totalAmount := totalAmount |} |} in
  let newState :=
    {| version := version currentState;
       pricePerKm := pricePerKm currentState;
       startingOdometer :=
         match lastOdometer currentState with
         | Some last => last
         | None => startingOdometer currentState
         end;
       lastOdometer := lastOdometer currentState;
       kmBy := mkKmBy 0 0;
       history := history currentState ++ [resetEntry];
       lastEnteredBy := lastEnteredBy currentState |} in
  (* Save to database *)
  addEntry resetEntry ;;
  saveAppState newState ;;
  ret {| message := message; newState := newState |}.

End Formatting.

(** For a price and an odometer that are numbers; [Runtime.updateSettings]
    has NaN as well. *)
Definition updateSettings (pricePerKm' : Q) (startingOdometer' : Z)
    (currentState : AppState) : Action AppState :=
  if Qle_bool pricePerKm' 0 then
    throw InvalidSettings "Price per km must be greater than 0."
  else if startingOdometer' <? 0 then
    throw InvalidSettings "Starting mileage must be >= 0."
  else
    let newState :=
      {| version := version currentState;
         pricePerKm := pricePerKm';
         startingOdometer :=
           match lastOdometer currentState with
           | None => startingOdometer'
           | Some _ => startingOdometer currentState
           end;
         lastOdometer := lastOdometer currentState;
         kmBy := kmBy currentState;
         history := history currentState;
         lastEnteredBy := lastEnteredBy currentState |} in
    saveAppState newState ;;
    ret newState.

(** ** The page that calls the actions *)

(** The part of the component state the handlers read and write. *)
Record Page : Type := mkPage { sessionUser : option User; state : option AppState }.

(** [setState(newState)] *)
Definition setState (pg : Page) (newState : AppState) : Page :=
  {| sessionUser := sessionUser pg; state := Some newState |}.

(** The handlers give the page after the call and the store it leaves. A
    failed action is caught and reported by an alert: the page keeps its
    state. [reading] is [Number(mileageValue)], a finite number. *)
Definition addMileage (id : string) (now : Z) (reading : Z) (pg : Page)
    (db : Database) : Page * Database :=
  match sessionUser pg, state pg with
  | Some u, Some st =>
      if reading <? 0 then (pg, db)
      else
        match addMileageEntry id now u reading st db with
        | (Ok newState, db') => (setState pg newState, db')
        | (Err _, db') => (pg, db')
        end
  | _, _ => (pg, db)
  end.

Definition undoLast (pg : Page) (db : Database) : Page * Database :=
  match state pg with
  | Some st =>
      match findLast isEntry (history st) with
      | None => (pg, db)
      | Some _ =>
          match undoLastEntry st db with
          | (Ok newState, db') => (setState pg newState, db')
          | (Err _, db') => (pg, db')
          end
      end
  | None => (pg, db)
  end.

Definition saveSettings (newPricePerKm : Q) (newStartingOdo : Z) (pg : Page)
    (db : Database) : Page * Database :=
  match state pg with
  | Some st =>
      match updateSettings newPricePerKm newStartingOdo st db with
      | (Ok newState, db') => (setState pg newState, db')
      | (Err _, db') => (pg, db')
      end
  | None => (pg, db)
  end.

Section PageFormatting.

Variable formatCurrency : Q -> string.
Variable toLocaleString : Z -> string.

(** Gives also the message handed to [openWhatsAppWithMessage]. *)
Definition doResetAndShare (id : string) (now : Z) (pg : Page) (db : Database)
  : Page * Database * option string :=
  match state pg with
  | Some st =>
      match resetAndGetMessage formatCurrency toLocaleString id now st db with
      | (Ok r, db') => (setState pg (newState r), db', Some (message r))
      | (Err _, db') => (pg, db', None)
      end
  | None => (pg, db, None)
  end.

End PageFormatting.

(** The store after [addEntry e ;; saveAppState s]. *)
Definition stored (e : Entry) (s : AppState) (db : Database) : Database :=
  snd (saveAppState s (snd (addEntry e db))).

(** ** The page that keeps the ledger in local storage (app/page.tsx)

    The same four operations as updaters of the component state, with no
    store behind them. *)

Module LocalPage.

Definition addMileage (newId : string) (now : Z) (sessionUser : option User)
    (reading : Z) (prev : AppState) : AppState :=
  match sessionUser with
  | None => prev
  | Some sessionUser =>
      if reading <? 0 then prev
      else
        match lastOdometer prev with
        | None =>
            (* first ever reading *)
            let entry0 :=
              {| id := newId; type := init; timestamp := now;
                 reading := Some reading; deltaKm := None; attributedTo := None;
                 enteredBy := Some sessionUser;
                 note := Some "Initial reading set"; snapshot := None |} in
            {| version := version prev;
               pricePerKm := pricePerKm prev;
               startingOdometer := reading;
               lastOdometer := Some reading;
               kmBy := kmBy prev;
               history := history prev ++ [entry0];
               lastEnteredBy := Some sessionUser |}
        | Some last =>
            (* normal entry *)
            let delta := reading - last in
            if delta <? 0 then prev
            else if delta =? 0 then
              let entry0 :=
                {| id := newId; type := entry; timestamp := now;
                   reading := Some reading; deltaKm := Some 0;
                   attributedTo := Some (OTHER sessionUser);
                   enteredBy := Some sessionUser;
                   note := Some "No change in km"; snapshot := None |} in
              {| version := version prev;
                 pricePerKm := pricePerKm prev;
                 startingOdometer := startingOdometer prev;
                 lastOdometer := Some reading;
                 kmBy := kmBy prev;
                 history := history prev ++ [entry0];
                 lastEnteredBy := Some sessionUser |}
            else
              let creditedUser := OTHER sessionUser in
              let entry0 :=
                {| id := newId; type := entry; timestamp := now;
                   reading := Some reading; deltaKm := Some delta;
                   attributedTo := Some creditedUser;
                   enteredBy := Some sessionUser;
                   note := None; snapshot := None |} in
              {| version := version prev;
                 pricePerKm := pricePerKm prev;
                 startingOdometer := startingOdometer prev;
                 lastOdometer := Some reading;
                 kmBy := kmSet (kmBy prev) creditedUser
                           (kmOf (kmBy prev) creditedUser + delta);
                 history := history prev ++ [entry0];
                 lastEnteredBy := Some sessionUser |}
        end
  end.

(** [history.slice(0, idx).concat(history.slice(idx + 1))] for [idx] the
    index [findIndex] gives for the identifier, and [None] when it gives -1. *)
Fixpoint removeFirstWithId (i : string) (h : list Entry) : option (list Entry) :=
  match h with
  | [] => None
  | e :: rest =>
      if String.eqb (id e) i then Some rest
      else
        match removeFirstWithId i rest with
        | Some rest' => Some (e :: rest')
        | None => None
        end
  end.

Definition undoLast (prev : AppState) : AppState :=
  match findLast isEntry (history prev) with
  | None => prev
  | Some lastEntry =>
      match removeFirstWithId (id lastEntry) (history prev) with
      | None => prev
      | Some newHistory =>
          (* find prior reading to restore lastOdometer *)
          let restoreTo :=
            match findLast hasReading newHistory with
            | Some e => reading e
            | None => None
            end in
          let newKmBy :=
            match attributedTo lastEntry with
            | Some a =>
                if 0 <? orZero (deltaKm lastEntry) then
                  kmSet (kmBy prev) a
                    (Z.max 0 (kmOf (kmBy prev) a - orZero (deltaKm lastEntry)))
                else kmBy prev
            | None => kmBy prev
            end in
          {| version := version prev;
             pricePerKm := pricePerKm prev;
             startingOdometer := startingOdometer prev;
             lastOdometer := restoreTo;
             kmBy := newKmBy;
             history := newHistory;
             lastEnteredBy := lastEnteredBy prev |}
      end
  end.

Section Formatting.

Variable formatCurrency : Q -> string.
Variable toLocaleString : Z -> string.

(** The message handed to [openWhatsAppWithMessage] and the new state. *)
Definition doResetAndShare (newId : string) (now : Z) (prev : AppState)
  : string * AppState :=
  let totalKm := kmOf (kmBy prev) Amit + kmOf (kmBy prev) Ori in
  let totalAmount := (inject_Z totalKm * pricePerKm prev)%Q in
  let amounts_Amit := (inject_Z (kmOf (kmBy prev) Amit) * pricePerKm prev)%Q in
  let amounts_Ori := (inject_Z (kmOf (kmBy prev) Ori) * pricePerKm prev)%Q in
  let ts := now in
  let dateStr := toLocaleString ts in
  let msg :=
    String.concat newline (filterBoolean
      [ Some ("Fuel split reset (" ++ dateStr ++ ")")%string;
        Some ("Price per km: " ++ formatCurrency (pricePerKm prev))%string;
        Some "Totals since last reset:";
        Some ("- Amit: " ++ numberToString (kmOf (kmBy prev) Amit)
              ++ " km => " ++ formatCurrency amounts_Amit)%string;
        Some ("- Ori: " ++ numberToString (kmOf (kmBy prev) Ori)
              ++ " km => " ++ formatCurrency amounts_Ori)%string;
        Some ("Total: " ++ numberToString totalKm
              ++ " km => " ++ formatCurrency totalAmount)%string;
        match lastOdometer prev with
        | Some last => Some ("Odometer: " ++ numberToString last ++ " km")%string
        | None => None
        end;
        Some "Please settle accordingly." ]) in
  (* Record reset *)
  let entry0 :=
    {| id := newId; type := reset; timestamp := ts; reading := None;
       deltaKm := None; attributedTo := None; enteredBy := None;
       note := Some "Reset & share";
       snapshot :=
         Some {| snap_kmBy := kmBy prev;
                 snap_pricePerKm := pricePerKm prev;
                 snap_totalKm := kmOf (kmBy prev) Amit + kmOf (kmBy prev) Ori;
                 snap_totalAmount :=
                   (inject_Z (kmOf (kmBy prev) Amit + kmOf (kmBy prev) Ori)
                    * pricePerKm prev)%Q |} |} in
  (msg,
   {| version := version prev;
      pricePerKm := pricePerKm prev;
      startingOdometer :=
        match lastOdometer prev with
        | Some last => last
        | None => startingOdometer prev
        end;
      lastOdometer := lastOdometer prev;
      kmBy := mkKmBy 0 0;
      history := history prev ++ [entry0];
      lastEnteredBy := lastEnteredBy prev |}).

End Formatting.

Definition saveSettings (newPricePerKm : Q) (newStartingOdo : Z) (prev : AppState)
  : AppState :=
  if Qle_bool newPricePerKm 0 then prev
  else if newStartingOdo <? 0 then prev
  else
    {| version := version prev;
       pricePerKm := newPricePerKm;
       startingOdometer :=
         match lastOdometer prev with
         | None => newStartingOdo
         | Some _ => startingOdometer prev
         end;
       lastOdometer := lastOdometer prev;
       kmBy := kmBy prev;
       history := history prev;
       lastEnteredBy := lastEnteredBy prev |}.

End LocalPage.

(** ** The ledger as a state machine *)

(** The reading of the most recent record that carries one: what
    [undoLastEntry] restores [lastOdometer] to. *)
Definition lastReading (h : list Entry) : option Z :=
  match findLast hasReading h with
  | Some e => reading e
  | None => None
  end.

(** The records after the latest reset record, or all of them when there is
    no reset record. *)
Fixpoint afterLatestReset (h : list Entry) : list Entry :=
  match h with
  | [] => []
  | e :: rest =>
      if existsb isReset rest then afterLatestReset rest
      else if isReset e then rest
      else e :: rest
  end.

(** The sum of [deltaKm] over the records of type entry. *)
Fixpoint sumDeltaKm (h : list Entry) : Z :=
  match h with
  | [] => 0
  | e :: rest => (if isEntry e then orZero (deltaKm e) else 0) + sumDeltaKm rest
  end.

Definition attributedToUser (u : User) (e : Entry) : bool :=
  match attributedTo e with
  | Some a => if User_eq_dec a u then true else false
  | None => false
  end.

(** The same sum over the entries attributed to [u]. *)
Fixpoint creditedKm (u : User) (h : list Entry) : Z :=
  match h with
  | [] => 0
  | e :: rest =>
      (if isEntry e && attributedToUser u e then orZero (deltaKm e) else 0)
      + creditedKm u rest
  end.

(** One operation of the ledger. The identifier of a new record is one no
    record of the history carries. *)
Inductive step : AppState -> AppState -> Prop :=
  | step_addMileageEntry newId now u r s db s' db' :
      ~ In newId (map id (history s)) ->
      addMileageEntry newId now u r s db = (Ok s', db') ->
      step s s'
  | step_undoLastEntry s db s' db' :
      undoLastEntry s db = (Ok s', db') ->
      step s s'
  | step_resetAndGetMessage formatCurrency toLocaleString newId now s db r db' :
      ~ In newId (map id (history s)) ->
      resetAndGetMessage formatCurrency toLocaleString newId now s db = (Ok r, db') ->
      step s (newState r)
  | step_updateSettings p o s db s' db' :
      updateSettings p o s db = (Ok s', db') ->
      step s s'.

(** The states the operations reach from the initial state. *)
Inductive reachable : AppState -> Prop :=
  | reachable_initial : reachable initialState
  | reachable_step s s' : reachable s -> step s s' -> reachable s'.

(** What every reachable state satisfies. *)
Record consistent (s : AppState) : Prop := mkConsistent {
  consistent_ids : NoDup (map id (history s));
  consistent_entries :
    forall e, In e (history s) -> type e = entry ->
      exists d a, deltaKm e = Some d /\ 0 <= d /\ attributedTo e = Some a;
  consistent_credit :
    forall u, kmOf (kmBy s) u = creditedKm u (afterLatestReset (history s));
  consistent_odometer : lastOdometer s = lastReading (history s)
}.

(** The state [undoLastEntry] returns when [lastEntry] is the record it
    found. *)
Definition undoStateOf (currentState : AppState) (lastEntry : Entry) : AppState :=
  let newHistory :=
    filter (fun e => negb (String.eqb (id e) (id lastEntry)))
           (history currentState) in
  {| version := version currentState;
     pricePerKm := pricePerKm currentState;
     startingOdometer := startingOdometer currentState;
     lastOdometer := lastReading newHistory;
     kmBy :=
       match attributedTo lastEntry with
       | Some a =>
           if 0 <? orZero (deltaKm lastEntry) then
             kmSet (kmBy currentState) a
               (Z.max 0 (kmOf (kmBy currentState) a - orZero (deltaKm lastEntry)))
           else kmBy currentState
       | None => kmBy currentState
       end;
     history := newHistory;
     lastEnteredBy := lastEnteredBy currentState |}.

(** ** What a reset builds *)

(** The reset entry: its snapshot holds the totals as they are before they
    are zeroed. *)
Definition resetEntryOf (newId : string) (now : Z) (s : AppState) : Entry :=
  {| id := newId; type := reset; timestamp := now; reading := None;
     deltaKm := None; attributedTo := None; enteredBy := None;
     note := Some "Reset & share";
     snapshot :=
       Some {| snap_kmBy := kmBy s;
               snap_pricePerKm := pricePerKm s;
               snap_totalKm := kmOf (kmBy s) Amit + kmOf (kmBy s) Ori;
               snap_totalAmount :=
                 (inject_Z (kmOf (kmBy s) Amit + kmOf (kmBy s) Ori) * pricePerKm s)%Q |} |}.

(** The state [resetAndGetMessage] returns. *)
Definition resetStateOf (newId : string) (now : Z) (s : AppState) : AppState :=
  {| version := version s;
     pricePerKm := pricePerKm s;
     startingOdometer :=
       match lastOdometer s with
       | Some last => last
       | None => startingOdometer s
       end;
     lastOdometer := lastOdometer s;
     kmBy := mkKmBy 0 0;
     history := history s ++ [resetEntryOf newId now s];
     lastEnteredBy := lastEnteredBy s |}.

(** ** A worked ledger

    Amit records 1000 on a new installation, Ori records 1180, Amit records
    1227. The entries and the states the actions build on the way. *)

Definition entry_1000 : Entry :=
  {| id := "1-aaaaaa"; type := init; timestamp := 1; reading := Some 1000;
     deltaKm := None; attributedTo := None; enteredBy := Some Amit;
     note := Some "Initial reading set"; snapshot := None |}.

Definition entry_1180 : Entry :=
  {| id := "2-bbbbbb"; type := entry; timestamp := 2; reading := Some 1180;
     deltaKm := Some 180; attributedTo := Some Amit; enteredBy := Some Ori;
     note := None; snapshot := None |}.

Definition entry_1227 : Entry :=
  {| id := "3-cccccc"; type := entry; timestamp := 3; reading := Some 1227;
     deltaKm := Some 47; attributedTo := Some Ori; enteredBy := Some Amit;
     note := None; snapshot := None |}.

Definition state_1000 : AppState :=
  {| version := 1; pricePerKm := 1 # 2; startingOdometer := 1000;
     lastOdometer := Some 1000; kmBy := mkKmBy 0 0;
     history := [entry_1000]; lastEnteredBy := Some Amit |}.

Definition state_1180 : AppState :=
  {| version := 1; pricePerKm := 1 # 2; startingOdometer := 1000;
     lastOdometer := Some 1180; kmBy := mkKmBy 180 0;
     history := [entry_1000; entry_1180]; lastEnteredBy := Some Ori |}.

Definition state_1227 : AppState :=
  {| version := 1; pricePerKm := 1 # 2; startingOdometer := 1000;
     lastOdometer := Some 1227; kmBy := mkKmBy 180 47;
     history := [entry_1000; entry_1180; entry_1227]; lastEnteredBy := Some Amit |}.

(** An entry with a positive reading and difference and an empty note. *)
Definition entry_empty_note : Entry :=
  {| id := "4-dddddd"; type := entry; timestamp := 4; reading := Some 1300;
     deltaKm := Some 73; attributedTo := Some Amit; enteredBy := Some Ori;
     note := Some ""; snapshot := None |}.

(** The entry of a reading equal to the last one, 1227, by Ori. *)
Definition entry_no_change : Entry :=
  {| id := "4-dddddd"; type := entry; timestamp := 4; reading := Some 1227;
     deltaKm := Some 0; attributedTo := Some Amit; enteredBy := Some Ori;
     note := Some "No change in km"; snapshot := None |}.



(** The store that first reading leaves. *)
Definition database_0 : Database :=
  snd (addMileageEntry "1-aaaaaa" 1 Amit 0 initialState initialDatabase).

(** A reset between two entries. *)
Definition entry_reset : Entry :=
  {| id := "5-eeeeee"; type := reset; timestamp := 5; reading := None;
     deltaKm := None; attributedTo := None; enteredBy := None;
     note := Some "Reset & share";
     snapshot := Some (mkSnapshot (mkKmBy 180 47) (1 # 2) 227 (227 # 2)) |}.

(** ** The actions on the identities of the store

    lib/database.ts and the page that calls the actions name the second
    identity John: [getAppState] returns [kmBy] with the keys Amit and John,
    and the page passes the name it signed in with, Amit or John, as
    [sessionUser]. The actions look the credited user up in a table keyed by
    Amit and Ori and read [kmBy.Amit] and [kmBy.Ori]. Here an identity is the
    string it is at run time and [kmBy] the object it is at run time: a key
    that is missing reads as [undefined], and arithmetic on [undefined]
    gives NaN. On the names Amit and Ori and a [kmBy] with those two keys
    these are the actions above, see [Runtime_addMileageEntry_agrees] and
    [Runtime_resetAndGetMessage_agrees]. *)

Module Runtime.

(** A number the actions compute with: an integer or NaN. *)
Inductive Num : Type := Int (z : Z) | NaN.

(** An object with numbers as values, its keys in the order they were
    added. *)
Definition Obj : Type := list (string * Num).

(** [o[k]]; [None] is [undefined]. *)
Fixpoint get (k : string) (o : Obj) : option Num :=
  match o with
  | [] => None
  | (k', v) :: rest => if String.eqb k' k then Some v else get k rest
  end.

(** [{ ...o, [k]: v }] *)
Fixpoint set (k : string) (v : Num) (o : Obj) : Obj :=
  match o with
  | [] => [(k, v)]
  | (k', v') :: rest =>
      if String.eqb k' k then (k, v) :: rest else (k', v') :: set k v rest
  end.

(** A value used as a key: [undefined] is the key "undefined". *)
Definition keyOf (k : option string) : string :=
  match k with
  | Some name => name
  | None => "undefined"
  end.

(** [x + d] for a value [x] read from an object and an integer [d]. *)
Definition plus (x : option Num) (d : Z) : Num :=
  match x with
  | Some (Int z) => Int (z + d)
  | _ => NaN
  end.

(** [x + y] for two values read from an object. *)
Definition sum (x y : option Num) : Num :=
  match x, y with
  | Some (Int a), Some (Int b) => Int (a + b)
  | _, _ => NaN
  end.

(** An amount of money: a rational or NaN. *)
Inductive Amount : Type := Fin (q : Q) | NotANumber.

(** [x * pricePerKm] *)
Definition times (x : option Num) (price : Amount) : Amount :=
  match x, price with
  | Some (Int z), Fin q => Fin (inject_Z z * q)
  | _, _ => NotANumber
  end.

(** [pricePerKm <= 0]: false on NaN. *)
Definition leZero (price : Amount) : bool :=
  match price with
  | Fin q => Qle_bool q 0
  | NotANumber => false
  end.

(** [startingOdometer < 0]: false on NaN. *)
Definition ltZero (n : Num) : bool :=
  match n with
  | Int z => z <? 0
  | NaN => false
  end.

(** [`${x}`] *)
Definition show (x : option Num) : string :=
  match x with
  | Some (Int z) => numberToString z
  | Some NaN => "NaN"
  | None => "undefined"
  end.

Record Snapshot : Type := mkSnapshot {
  snap_kmBy : Obj;
  snap_pricePerKm : Amount;
  snap_totalKm : Num;
  snap_totalAmount : Amount
}.

Record Entry : Type := mkEntry {
  id : string;
  type : EntryType;
  timestamp : Z;
  reading : option Z;
  deltaKm : option Z;
  attributedTo : option string;
  enteredBy : option string;
  note : option string;
  snapshot : option Snapshot
}.

Record AppState : Type := mkAppState {
  version : Z;
  pricePerKm : Amount;
  startingOdometer : Num;
  lastOdometer : option Z;
  kmBy : Obj;
  history : list Entry;
  lastEnteredBy : option string
}.

Record ResetResult : Type := mkResetResult { message : string; newState : AppState }.

Definition isEntry (e : Entry) : bool := EntryType_eqb (type e) entry.
Definition isReset (e : Entry) : bool := EntryType_eqb (type e) reset.

(** The sum of [deltaKm] over the records of type entry. *)
Fixpoint sumDeltaKm (h : list Entry) : Z :=
  match h with
  | [] => 0
  | e :: rest => (if isEntry e then orZero (deltaKm e) else 0) + sumDeltaKm rest
  end.

Section Actions.

(** The store is the one the caller brings: [addEntry] and [saveAppState]
    are the two calls the actions below make to it. *)
Variable Store : Type.

Definition Action (A : Type) : Type := Store -> Result A * Store.

Definition ret {A} (a : A) : Action A := fun st => (Ok a, st).

Definition throw {A} (k : ErrorKind) (msg : string) : Action A :=
  fun st => (Err (mkError k msg), st).

Definition bind {A B} (m : Action A) (f : A -> Action B) : Action B :=
  fun st =>
    match m st with
    | (Ok a, st') => f a st'
    | (Err e, st') => (Err e, st')
    end.

Variable addEntry : Entry -> Action unit.
Variable saveAppState : AppState -> Action unit.

Definition addMileageEntry (newId : string) (now : Z)
    (sessionUser : string) (reading : Z) (currentState : AppState)
  : Action AppState :=
  bind
    match lastOdometer currentState with
    | None =>
        (* First ever reading *)
        ret ({| id := newId;
                type := init;
                timestamp := now;
                reading := Some reading;
                deltaKm := None;
                attributedTo := None;
                enteredBy := Some sessionUser;
                note := Some "Initial reading set";
                snapshot := None |},
             {| version := version currentState;
                pricePerKm := pricePerKm currentState;
                startingOdometer := Int reading;
                lastOdometer := Some reading;
                kmBy := kmBy currentState;
                history := history currentState;
                lastEnteredBy := Some sessionUser |})
    | Some last =>
        (* Normal entry *)
        let delta := reading - last in
        if delta <? 0 then
          throw InvalidReading "Mileage cannot decrease. Please check the value."
        else if delta =? 0 then
          ret ({| id := newId;
                  type := entry;
                  timestamp := now;
                  reading := Some reading;
                  deltaKm := Some 0;
                  attributedTo := lookup sessionUser OTHER_table;
                  enteredBy := Some sessionUser;
                  note := Some "No change in km";
                  snapshot := None |},
               {| version := version currentState;
                  pricePerKm := pricePerKm currentState;
                  startingOdometer := startingOdometer currentState;
                  lastOdometer := Some reading;
                  kmBy := kmBy currentState;
                  history := history currentState;
                  lastEnteredBy := Some sessionUser |})
        else
          let creditedUser := lookup sessionUser OTHER_table in
          ret ({| id := newId;
                  type := entry;
                  timestamp := now;
                  reading := Some reading;
                  deltaKm := Some delta;
                  attributedTo := creditedUser;
                  enteredBy := Some sessionUser;
                  note := None;
                  snapshot := None |},
               {| version := version currentState;
                  pricePerKm := pricePerKm currentState;
                  startingOdometer := startingOdometer currentState;
                  lastOdometer := Some reading;
                  kmBy := set (keyOf creditedUser)
                            (plus (get (keyOf creditedUser) (kmBy currentState)) delta)
                            (kmBy currentState);
                  history := history currentState;
                  lastEnteredBy := Some sessionUser |})
    end
    (fun p =>
       let newEntry := fst p in
       let newState := snd p in
       (* Save to database *)
       bind (addEntry newEntry) (fun _ =>
       bind (saveAppState newState) (fun _ =>
       (* Return updated state with new entry in history *)
       ret {| version := version newState;
              pricePerKm := pricePerKm newState;
              startingOdometer := startingOdometer newState;
              lastOdometer := lastOdometer newState;
              kmBy := kmBy newState;
              history := history newState ++ [newEntry];
              lastEnteredBy := lastEnteredBy newState |}))).

Section Formatting.

Variable formatCurrency : Amount -> string.
Variable toLocaleString : Z -> string.

Definition resetAndGetMessage (newId : string) (now : Z) (currentState : AppState)
  : Action ResetResult :=
  let totalKm := sum (get "Amit" (kmBy currentState)) (get "Ori" (kmBy currentState)) in
  let totalAmount := times (Some totalKm) (pricePerKm currentState) in
  let amounts_Amit := times (get "Amit" (kmBy currentState)) (pricePerKm currentState) in
  let amounts_Ori := times (get "Ori" (kmBy currentState)) (pricePerKm currentState) in
  let ts := now in
  let dateStr := toLocaleString ts in
  let message :=
    String.concat newline (filterBoolean
      [ Some ("Fuel split reset (" ++ dateStr ++ ")")%string;
        Some ("Price per km: " ++ formatCurrency (pricePerKm currentState))%string;
        Some "Totals since last reset:";
        Some ("- Amit: " ++ show (get "Amit" (kmBy currentState))
              ++ " km => " ++ formatCurrency amounts_Amit)%string;
        Some ("- Ori: " ++ show (get "Ori" (kmBy currentState))
              ++ " km => " ++ formatCurrency amounts_Ori)%string;
        Some ("Total: " ++ show (Some totalKm)
              ++ " km => " ++ formatCurrency totalAmount)%string;
        match lastOdometer currentState with
        | Some last => Some ("Odometer: " ++ numberToString last ++ " km")%string
        | None => None
        end;
        Some "Please settle accordingly." ]) in
  (* Create reset entry *)
  let resetEntry :=
    {| id := newId;
       type := reset;
       timestamp := ts;
       reading := None;
       deltaKm := None;
       attributedTo := None;
       enteredBy := None;
       note := Some "Reset & share";
       snapshot := Some {| snap_kmBy := kmBy currentState;
                           snap_pricePerKm := pricePerKm currentState;
                           snap_totalKm := totalKm;
                           snap_totalAmount := totalAmount |} |} in
  let newState :=
    {| version := version currentState;
       pricePerKm := pricePerKm currentState;
       startingOdometer :=
         match lastOdometer currentState with
         | Some last => Int last
         | None => startingOdometer currentState
         end;
       lastOdometer := lastOdometer currentState;
       kmBy := [("Amit", Int 0); ("Ori", Int 0)];
       history := history currentState ++ [resetEntry];
       lastEnteredBy := lastEnteredBy currentState |} in
  (* Save to database *)
  bind (addEntry resetEntry) (fun _ =>
  bind (saveAppState newState) (fun _ =>
  ret {| message := message; newState := newState |})).

End Formatting.

(** [pricePerKm] and [startingOdometer] are what [Number(text)] gave the
    page: a number, or NaN for a text that is not one. *)
Definition updateSettings (pricePerKm' : Amount) (startingOdometer' : Num)
    (currentState : AppState) : Action AppState :=
  if leZero pricePerKm' then
    throw InvalidSettings "Price per km must be greater than 0."
  else if ltZero startingOdometer' then
    throw InvalidSettings "Starting mileage must be >= 0."
  else
    let newState :=
      {| version := version currentState;
         pricePerKm := pricePerKm';
         startingOdometer :=
           match lastOdometer currentState with
           | None => startingOdometer'
           | Some _ => startingOdometer currentState
           end;
         lastOdometer := lastOdometer currentState;
         kmBy := kmBy currentState;
         history := history currentState;
         lastEnteredBy := lastEnteredBy currentState |} in
    bind (saveAppState newState) (fun _ => ret newState).

End Actions.

Arguments ret {Store A} a.
Arguments throw {Store A} k msg.
Arguments bind {Store A B} m f.

(** A store that takes every call: it keeps the entries and the states it
    was handed, in the order of the calls. *)
Inductive Call : Type :=
  | AddEntry (e : Entry)
  | SaveAppState (s : AppState).

Definition record_addEntry (e : Entry) : Action (list Call) unit :=
  fun calls => (Ok tt, calls ++ [AddEntry e]).

Definition record_saveAppState (s : AppState) : Action (list Call) unit :=
  fun calls => (Ok tt, calls ++ [SaveAppState s]).

(** The state [getAppState] builds from the row of a new installation
    (lib/database.ts, lines 70 to 81): the totals under the keys Amit and
    John. *)
Definition loadedState : AppState :=
  {| version := 1;
     pricePerKm := Fin (1 # 2);
     startingOdometer := Int 0;
     lastOdometer := None;
     kmBy := [("Amit", Int 0); ("John", Int 0)];
     history := [];
     lastEnteredBy := None |}.

(** Amit records 1000 on it, then John records 1180. *)
Definition entry_1000 : Entry :=
  {| id := "1-aaaaaa"; type := init; timestamp := 1; reading := Some 1000;
     deltaKm := None; attributedTo := None; enteredBy := Some "Amit";
     note := Some "Initial reading set"; snapshot := None |}.

Definition loaded_1000 : AppState :=
  {| version := 1; pricePerKm := Fin (1 # 2); startingOdometer := Int 1000;
     lastOdometer := Some 1000; kmBy := [("Amit", Int 0); ("John", Int 0)];
     history := [entry_1000]; lastEnteredBy := Some "Amit" |}.

(** A state with totals under the keys of the store. *)
Definition loaded_totals : AppState :=
  {| version := 1; pricePerKm := Fin (1 # 2); startingOdometer := Int 1000;
     lastOdometer := Some 1227; kmBy := [("Amit", Int 180); ("John", Int 47)];
     history := [entry_1000]; lastEnteredBy := Some "Amit" |}.

End Runtime.

(** A state of the actions as the object it is at run time: the totals
    under the keys Amit and Ori. *)
Definition runtimeKmBy (k : KmBy) : Runtime.Obj :=
  [("Amit", Runtime.Int (km_Amit k)); ("Ori", Runtime.Int (km_Ori k))].

Definition runtimeSnapshot (snap : Snapshot) : Runtime.Snapshot :=
  {| Runtime.snap_kmBy := runtimeKmBy (snap_kmBy snap);
     Runtime.snap_pricePerKm := Runtime.Fin (snap_pricePerKm snap);
     Runtime.snap_totalKm := Runtime.Int (snap_totalKm snap);
     Runtime.snap_totalAmount := Runtime.Fin (snap_totalAmount snap) |}.

Definition runtimeEntry (e : Entry) : Runtime.Entry :=
  {| Runtime.id := id e;
     Runtime.type := type e;
     Runtime.timestamp := timestamp e;
     Runtime.reading := reading e;
     Runtime.deltaKm := deltaKm e;
     Runtime.attributedTo := option_map userName (attributedTo e);
     Runtime.enteredBy := option_map userName (enteredBy e);
     Runtime.note := note e;
     Runtime.snapshot := option_map runtimeSnapshot (snapshot e) |}.

Definition runtimeState (s : AppState) : Runtime.AppState :=
  {| Runtime.version := version s;
     Runtime.pricePerKm := Runtime.Fin (pricePerKm s);
     Runtime.startingOdometer := Runtime.Int (startingOdometer s);
     Runtime.lastOdometer := lastOdometer s;
     Runtime.kmBy := runtimeKmBy (kmBy s);
     Runtime.history := map runtimeEntry (history s);
     Runtime.lastEnteredBy := option_map userName (lastEnteredBy s) |}.

(** ** Runs of the local page

    One call of a handler of the page that keeps the ledger in local
    storage, by a signed-in user. A new record gets an identifier no record
    of the history carries. *)
Inductive localStep : AppState -> AppState -> Prop :=
  | localStep_addMileage newId now u r s :
      ~ In newId (map id (history s)) ->
      localStep s (LocalPage.addMileage newId now (Some u) r s)
  | localStep_undoLast s :
      localStep s (LocalPage.undoLast s)
  | localStep_doResetAndShare formatCurrency toLocaleString newId now s :
      ~ In newId (map id (history s)) ->
      localStep s (snd (LocalPage.doResetAndShare formatCurrency toLocaleString newId now s))
  | localStep_saveSettings p o s :
      localStep s (LocalPage.saveSettings p o s).

(** The states the local page reaches from the state of a new
    installation. *)
Inductive localReachable : AppState -> Prop :=
  | localReachable_initial : localReachable initialState
  | localReachable_step s s' : localReachable s -> localStep s s' -> localReachable s'.

(** The bounds the local page keeps on the readings and the totals. *)
Definition withinBounds (s : AppState) : Prop :=
  (forall l, lastOdometer s = Some l -> 0 <= l)
  /\ (forall e r, In e (history s) -> reading e = Some r -> 0 <= r)
  /\ (forall u, 0 <= kmOf (kmBy s) u).

(** ** Readings along a history *)

(** The readings the records carry, oldest first. *)
Fixpoint readingsOf (h : list Entry) : list Z :=
  match h with
  | [] => []
  | e :: rest =>
      match reading e with
      | Some r => r :: readingsOf rest
      | None => readingsOf rest
      end
  end.

Definition isInit (e : Entry) : bool := EntryType_eqb (type e) init.

(** What a record is when [last] is the reading before it: a reset carries
    no reading, an init record is the first to carry one, an entry carries a
    reading not below [last] and the difference as [deltaKm]. *)
Definition recordOk (last : option Z) (e : Entry) : Prop :=
  match type e with
  | reset => reading e = None
  | init => last = None /\ exists r, reading e = Some r
  | entry =>
      exists l r, last = Some l /\ reading e = Some r /\ l <= r
                  /\ deltaKm e = Some (r - l)
  end.

Fixpoint chainedFrom (last : option Z) (h : list Entry) : Prop :=
  match h with
  | [] => True
  | e :: rest =>
      recordOk last e
      /\ chainedFrom (match reading e with
                      | Some r => Some r
                      | None => last
                      end) rest
  end.

(** The last reading of [h], or [last] when no record of [h] carries one. *)
Definition lastFrom (last : option Z) (h : list Entry) : option Z :=
  match lastReading h with
  | Some r => Some r
  | None => last
  end.

(** The shape of a record of each type: which fields it carries. An entry
    is attributed to the other user than the one who entered it; the
    snapshot of a reset holds totals that are not negative, their sum and
    the amount at its price. *)
Definition wellShaped (e : Entry) : Prop :=
  match type e with
  | init =>
      (exists r, reading e = Some r)
      /\ deltaKm e = None /\ attributedTo e = None
      /\ (exists u, enteredBy e = Some u)
      /\ snapshot e = None
  | entry =>
      (exists r, reading e = Some r)
      /\ (exists d, deltaKm e = Some d /\ 0 <= d)
      /\ (exists u, enteredBy e = Some u /\ attributedTo e = Some (OTHER u))
      /\ snapshot e = None
  | reset =>
      reading e = None /\ deltaKm e = None
      /\ attributedTo e = None /\ enteredBy e = None
      /\ exists snap,
           snapshot e = Some snap
           /\ (forall u, 0 <= kmOf (snap_kmBy snap) u)
           /\ snap_totalKm snap
              = kmOf (snap_kmBy snap) Amit + kmOf (snap_kmBy snap) Ori
           /\ snap_totalAmount snap
              = (inject_Z (snap_totalKm snap) * snap_pricePerKm snap)%Q
  end.

(** [undoLastEntry] called [n] times in a row, each on the state and the
    store the call before returned; the first failure ends the run. *)
Fixpoint undoTimes (n : nat) (s : AppState) (db : Database)
  : Result AppState * Database :=
  match n with
  | O => (Ok s, db)
  | S k =>
      match undoLastEntry s db with
      | (Ok s', db') => undoTimes k s' db'
      | (Err e, db') => (Err e, db')
      end
  end.


(** * Properties *)

(** ** Recording a reading *)

Lemma OTHER_neq (u : User) : OTHER u <> u.
Proof. destruct u; discriminate. Qed.

(** [OTHER] is the table on the names it is keyed by. The name John, which
    lib/database.ts and the page that calls the actions give the second
    identity, is not one of them. *)
Lemma OTHER_table_lookup (u : User) :
  lookup (userName u) OTHER_table = Some (userName (OTHER u)).
Proof. destruct u; reflexivity. Qed.

Lemma OTHER_table_no_John : lookup "John" OTHER_table = None.
Proof. reflexivity. Qed.

Lemma kmOf_kmSet_same k u v : kmOf (kmSet k u v) u = v.
Proof. destruct u; reflexivity. Qed.

Lemma kmOf_kmSet_other k u w v : u <> w -> kmOf (kmSet k u v) w = kmOf k w.
Proof. destruct u, w; intros H; try reflexivity; contradiction H; reflexivity. Qed.



(** The entry and the state of the branch [delta > 0]. *)
Lemma addMileageEntry_positive id now u r s db last :
  lastOdometer s = Some last -> 0 < r - last ->
  let e := {| id := id; type := entry; timestamp := now; reading := Some r;
              deltaKm := Some (r - last); attributedTo := Some (OTHER u);
              enteredBy := Some u; note := None; snapshot := None |} in
  let s1 := {| version := version s; pricePerKm := pricePerKm s;
               startingOdometer := startingOdometer s; lastOdometer := Some r;
               kmBy := kmSet (kmBy s) (OTHER u) (kmOf (kmBy s) (OTHER u) + (r - last));
               history := history s; lastEnteredBy := Some u |} in
  addMileageEntry id now u r s db
  = (Ok (withHistory s1 (history s ++ [e])), stored e s1 db).
Proof.
  intros Hlast Hpos. unfold addMileageEntry. rewrite Hlast.
  destruct (r - last <? 0) eqn:Hneg; [apply Z.ltb_lt in Hneg; lia|].
  destruct (r - last =? 0) eqn:Hz; [apply Z.eqb_eq in Hz; lia|].
  reflexivity.
Qed.

(** The entry and the state of the branch [delta === 0]. *)
Lemma addMileageEntry_zero id now u s db last :
  lastOdometer s = Some last ->
  let e := {| id := id; type := entry; timestamp := now; reading := Some last;
              deltaKm := Some 0; attributedTo := Some (OTHER u);
              enteredBy := Some u; note := Some "No change in km";
              snapshot := None |} in
  let s1 := {| version := version s; pricePerKm := pricePerKm s;
               startingOdometer := startingOdometer s; lastOdometer := Some last;
               kmBy := kmBy s; history := history s; lastEnteredBy := Some u |} in
  addMileageEntry id now u last s db
  = (Ok (withHistory s1 (history s ++ [e])), stored e s1 db).
Proof.
  intros Hlast. unfold addMileageEntry. rewrite Hlast.
  rewrite Z.sub_diag. reflexivity.
Qed.

(** The entry and the state of the first reading. *)
Lemma addMileageEntry_first id now u r s db :
  lastOdometer s = None ->
  let e := {| id := id; type := init; timestamp := now; reading := Some r;
              deltaKm := None; attributedTo := None; enteredBy := Some u;
              note := Some "Initial reading set"; snapshot := None |} in
  let s1 := {| version := version s; pricePerKm := pricePerKm s;
               startingOdometer := r; lastOdometer := Some r;
               kmBy := kmBy s; history := history s; lastEnteredBy := Some u |} in
  addMileageEntry id now u r s db
  = (Ok (withHistory s1 (history s ++ [e])), stored e s1 db).
Proof.
  intros Hlast. unfold addMileageEntry. rewrite Hlast. reflexivity.
Qed.

Lemma addMileageEntry_negative id now u r s db last :
  lastOdometer s = Some last -> r < last ->
  addMileageEntry id now u r s db
  = (Err (mkError InvalidReading "Mileage cannot decrease. Please check the value."), db).
Proof.
  intros Hlast Hlt. unfold addMileageEntry. rewrite Hlast.
  destruct (r - last <? 0) eqn:Hneg; [reflexivity|].
  apply Z.ltb_ge in Hneg; lia.
Qed.

Example worked_ledger :
  fst (addMileageEntry "1-aaaaaa" 1 Amit 1000 initialState initialDatabase) = Ok state_1000
  /\ (forall db, fst (addMileageEntry "2-bbbbbb" 2 Ori 1180 state_1000 db) = Ok state_1180)
  /\ (forall db, fst (addMileageEntry "3-cccccc" 3 Amit 1227 state_1180 db) = Ok state_1227).
Proof. repeat split. Qed.

Example reset_worked_ledger :
  forall fc tl db,
    exists msg,
      fst (resetAndGetMessage fc tl "5-eeeeee" 5 state_1227 db)
      = Ok {| message := msg;
              newState :=
                {| version := 1; pricePerKm := 1 # 2; startingOdometer := 1227;
                   lastOdometer := Some 1227; kmBy := mkKmBy 0 0;
                   history := [entry_1000; entry_1180; entry_1227; entry_reset];
                   lastEnteredBy := Some Amit |} |}.
Proof. intros fc tl db. eexists. reflexivity. Qed.

Example message_worked_ledger :
  forall db,
    exists r,
      fst (resetAndGetMessage (fun _ => "AMOUNT") (fun _ => "DATE")
             "5-eeeeee" 5 state_1227 db) = Ok r
      /\ message r
         = String.concat newline
             [ "Fuel split reset (DATE)";
               "Price per km: AMOUNT";
               "Totals since last reset:";
               "- Amit: 180 km => AMOUNT";
               "- Ori: 47 km => AMOUNT";
               "Total: 227 km => AMOUNT";
               "Odometer: 1227 km";
               "Please settle accordingly." ].
Proof. intros db. eexists. split; reflexivity. Qed.

(** For the two identities the table [OTHER] is keyed by, Amit and Ori, and
    a state with the totals under those two keys: with [lastOdometer] set
    and a reading above it, the entry [addMileageEntry] appends is attributed
    to [OTHER sessionUser], never to the submitter, and the difference is
    added to the total of that other user only. *)
Lemma addMileageEntry_credits_other :
  forall newId now u r s db last,
    lastOdometer s = Some last -> 0 < r - last ->
    exists s' db' e,
      addMileageEntry newId now u r s db = (Ok s', db')
      /\ history s' = history s ++ [e]
      /\ id e = newId
      /\ type e = entry
      /\ enteredBy e = Some u
      /\ attributedTo e = Some (OTHER u)
      /\ attributedTo e <> Some u
      /\ deltaKm e = Some (r - last)
      /\ kmOf (kmBy s') (OTHER u) = kmOf (kmBy s) (OTHER u) + (r - last)
      /\ kmOf (kmBy s') u = kmOf (kmBy s) u.
Proof.
  intros newId now u r s db last Hlast Hpos.
  pose proof (addMileageEntry_positive newId now u r s db last Hlast Hpos) as Hrun.
  cbv zeta in Hrun.
  eexists; eexists; eexists. split; [exact Hrun|].
  simpl. repeat split.
  - intros H; injection H; apply OTHER_neq.
  - apply kmOf_kmSet_same.
  - apply kmOf_kmSet_other, OTHER_neq.
Qed.

(** C3. With [lastOdometer] set, a reading below it makes [addMileageEntry]
    fail with InvalidReading before anything is written: the store is the one
    it was given, and the page that called it keeps its state. An accepted
    reading never leaves [lastOdometer] below its previous value. *)
Theorem addMileageEntry_rejects_decrease :
  forall id now u r s db last,
    lastOdometer s = Some last ->
    (r < last ->
       addMileageEntry id now u r s db
       = (Err (mkError InvalidReading "Mileage cannot decrease. Please check the value."), db)
       /\ addMileage id now r (mkPage (Some u) (Some s)) db
          = (mkPage (Some u) (Some s), db))
    /\ (forall s' db',
          addMileageEntry id now u r s db = (Ok s', db') ->
          lastOdometer s' = Some r /\ last <= r)
    /\ (exists s', state (fst (addMileage id now r (mkPage (Some u) (Some s)) db)) = Some s'
          /\ exists last', lastOdometer s' = Some last' /\ last <= last').
Proof.
  intros id0 now u r s db last Hlast.
  split; [|split].
  - intros Hlt.
    pose proof (addMileageEntry_negative id0 now u r s db last Hlast Hlt) as Hrun.
    split; [exact Hrun|].
    unfold addMileage; simpl. rewrite Hrun.
    destruct (r <? 0); reflexivity.
  - intros s' db' Hrun.
    destruct (Z.lt_ge_cases r last) as [Hlt|Hge].
    + rewrite (addMileageEntry_negative id0 now u r s db last Hlast Hlt) in Hrun.
      discriminate.
    + split; [|lia].
      destruct (Z.eq_dec r last) as [->|Hne].
      * rewrite (addMileageEntry_zero id0 now u s db last Hlast) in Hrun.
        injection Hrun as <- _. reflexivity.
      * rewrite (addMileageEntry_positive id0 now u r s db last Hlast) in Hrun by lia.
        injection Hrun as <- _. reflexivity.
  - unfold addMileage; simpl.
    destruct (r <? 0) eqn:Hr0.
    + exists s; split; [reflexivity|]. exists last; split; [assumption|lia].
    + destruct (Z.lt_ge_cases r last) as [Hlt|Hge].
      * rewrite (addMileageEntry_negative id0 now u r s db last Hlast Hlt).
        exists s; split; [reflexivity|]. exists last; split; [assumption|lia].
      * destruct (Z.eq_dec r last) as [->|Hne].
        -- rewrite (addMileageEntry_zero id0 now u s db last Hlast).
           eexists; split; [reflexivity|]. exists last; split; [reflexivity|lia].
        -- rewrite (addMileageEntry_positive id0 now u r s db last Hlast) by lia.
           eexists; split; [reflexivity|]. exists r; split; [reflexivity|lia].
Qed.

Lemma addMileageEntry_rejects_decrease_witness :
  lastOdometer state_1000 = Some 1000
  /\ 900 < 1000
  /\ addMileageEntry "2-bbbbbb" 2 Amit 900 state_1000 initialDatabase
     = (Err (mkError InvalidReading "Mileage cannot decrease. Please check the value."),
        initialDatabase)
  /\ addMileage "2-bbbbbb" 2 900 (mkPage (Some Amit) (Some state_1000)) initialDatabase
     = (mkPage (Some Amit) (Some state_1000), initialDatabase).
Proof.
  split; [reflexivity|]. split; [reflexivity|].
  apply (addMileageEntry_rejects_decrease "2-bbbbbb" 2 Amit 900 state_1000
           initialDatabase 1000); reflexivity.
Defined.

(** ** Reset *)

Section ResetProperties.

Variable formatCurrency : Q -> string.
Variable toLocaleString : Z -> string.

Lemma resetAndGetMessage_succeeds newId now s db :
  exists msg,
    resetAndGetMessage formatCurrency toLocaleString newId now s db
    = (Ok {| message := msg; newState := resetStateOf newId now s |},
       stored (resetEntryOf newId now s) (resetStateOf newId now s) db).
Proof. eexists. reflexivity. Qed.

(** On a state with the totals under the keys Amit and Ori,
    [resetAndGetMessage] appends a reset entry whose snapshot holds the
    totals and the price of the state it was given, with
    [totalKm = kmBy.Amit + kmBy.Ori] and [totalAmount = totalKm * pricePerKm];
    in the state it returns both totals are 0. *)
Lemma resetAndGetMessage_snapshot :
  forall newId now s db,
    exists r db' e snap,
      resetAndGetMessage formatCurrency toLocaleString newId now s db = (Ok r, db')
      /\ history (newState r) = history s ++ [e]
      /\ type e = reset
      /\ snapshot e = Some snap
      /\ snap_kmBy snap = kmBy s
      /\ snap_pricePerKm snap = pricePerKm s
      /\ snap_totalKm snap = kmOf (kmBy s) Amit + kmOf (kmBy s) Ori
      /\ snap_totalAmount snap
         = (inject_Z (kmOf (kmBy s) Amit + kmOf (kmBy s) Ori) * pricePerKm s)%Q
      /\ kmOf (kmBy (newState r)) Amit = 0
      /\ kmOf (kmBy (newState r)) Ori = 0.
Proof.
  intros newId now s db.
  destruct (resetAndGetMessage_succeeds newId now s db) as (msg & Hrun).
  eexists. eexists. exists (resetEntryOf newId now s). eexists.
  split; [exact Hrun|]. simpl. repeat split.
Qed.

(** C6. [resetAndGetMessage] leaves [lastOdometer], [lastEnteredBy],
    [pricePerKm] and [version] as they were; [startingOdometer] becomes
    [lastOdometer] when that is set and is kept otherwise. The three other
    fields are the ones it writes: [kmBy] is zeroed and [history] gets the
    reset entry. *)
Theorem resetAndGetMessage_frame :
  forall newId now s db,
    exists r db',
      resetAndGetMessage formatCurrency toLocaleString newId now s db = (Ok r, db')
      /\ lastOdometer (newState r) = lastOdometer s
      /\ lastEnteredBy (newState r) = lastEnteredBy s
      /\ pricePerKm (newState r) = pricePerKm s
      /\ version (newState r) = version s
      /\ startingOdometer (newState r)
         = match lastOdometer s with
           | Some last => last
           | None => startingOdometer s
           end
      /\ kmBy (newState r) = mkKmBy 0 0
      /\ history (newState r) = history s ++ [resetEntryOf newId now s].
Proof.
  intros newId now s db.
  destruct (resetAndGetMessage_succeeds newId now s db) as (msg & Hrun).
  eexists. eexists. split; [exact Hrun|]. simpl. repeat split.
Qed.

End ResetProperties.

(** ** Settings *)

Lemma updateSettings_accepts p o s db :
  (0 < p)%Q -> 0 <= o ->
  let s1 := {| version := version s; pricePerKm := p;
               startingOdometer :=
                 match lastOdometer s with
                 | None => o
                 | Some _ => startingOdometer s
                 end;
               lastOdometer := lastOdometer s; kmBy := kmBy s;
               history := history s; lastEnteredBy := lastEnteredBy s |} in
  updateSettings p o s db = (Ok s1, snd (saveAppState s1 db)).
Proof.
  intros Hp Ho. unfold updateSettings.
  destruct (Qle_bool p 0) eqn:Hle.
  - apply Qle_bool_iff in Hle. exfalso. exact (Qlt_not_le _ _ Hp Hle).
  - destruct (o <? 0) eqn:Hneg; [apply Z.ltb_lt in Hneg; lia|]. reflexivity.
Qed.

Lemma updateSettings_rejects p o s db :
  (p <= 0)%Q \/ o < 0 ->
  exists msg, updateSettings p o s db = (Err (mkError InvalidSettings msg), db).
Proof.
  intros Hbad. unfold updateSettings.
  destruct (Qle_bool p 0) eqn:Hle; [eexists; reflexivity|].
  destruct (o <? 0) eqn:Hneg; [eexists; reflexivity|].
  exfalso. destruct Hbad as [Hp|Ho].
  - apply Qle_bool_iff in Hp. congruence.
  - apply Z.ltb_ge in Hneg. lia.
Qed.

(** C8. [updateSettings] fails with InvalidSettings when the price is not
    positive or the starting odometer is negative, before anything is
    written: the store is the one given and the page keeps its state.
    Otherwise it succeeds: the price is the new one, [startingOdometer] is
    the new one only when [lastOdometer] is unset, every other field and the
    history are kept, and the store gets no history row. *)
Theorem updateSettings_validates_and_gates :
  forall p o s db,
    ((p <= 0)%Q \/ o < 0 ->
       (exists msg, updateSettings p o s db = (Err (mkError InvalidSettings msg), db))
       /\ forall u, saveSettings p o (mkPage u (Some s)) db = (mkPage u (Some s), db))
    /\ ((0 < p)%Q /\ 0 <= o ->
        exists s' db',
          updateSettings p o s db = (Ok s', db')
          /\ pricePerKm s' = p
          /\ startingOdometer s'
             = match lastOdometer s with
               | None => o
               | Some _ => startingOdometer s
               end
          /\ history s' = history s
          /\ fuel_split_entries db' = fuel_split_entries db
          /\ version s' = version s
          /\ lastOdometer s' = lastOdometer s
          /\ kmBy s' = kmBy s
          /\ lastEnteredBy s' = lastEnteredBy s).
Proof.
  intros p o s db. split.
  - intros Hbad. destruct (updateSettings_rejects p o s db Hbad) as (msg & Hrun).
    split; [exists msg; exact Hrun|].
    intros u. unfold saveSettings; simpl. rewrite Hrun. reflexivity.
  - intros [Hp Ho]. pose proof (updateSettings_accepts p o s db Hp Ho) as Hrun.
    cbv zeta in Hrun. eexists; eexists. split; [exact Hrun|].
    simpl. repeat split.
Qed.

Lemma updateSettings_validates_and_gates_witness :
  (((0 # 1 <= 0)%Q \/ 5 < 0) /\
   exists msg, updateSettings (0 # 1) 5 state_1000 initialDatabase
               = (Err (mkError InvalidSettings msg), initialDatabase))
  /\ (((0 < 3 # 4)%Q /\ 0 <= 5) /\
      exists s' db',
        updateSettings (3 # 4) 5 state_1000 initialDatabase = (Ok s', db')
        /\ pricePerKm s' = 3 # 4
        /\ startingOdometer s' = 1000).
Proof.
  split.
  - assert (Hbad : (0 # 1 <= 0)%Q \/ 5 < 0) by (left; discriminate).
    split; [exact Hbad|].
    exact (proj1 (proj1 (updateSettings_validates_and_gates
                           (0 # 1) 5 state_1000 initialDatabase) Hbad)).
  - assert (Hgood : (0 < 3 # 4)%Q /\ 0 <= 5) by (split; [reflexivity|discriminate]).
    split; [exact Hgood|].
    destruct (proj2 (updateSettings_validates_and_gates
                       (3 # 4) 5 state_1000 initialDatabase) Hgood)
      as (s' & db' & Hrun & Hprice & Hstart & _).
    exists s', db'. repeat split; assumption.
Defined.

(** ** What [addHistoryEntry] stores *)

Lemma orNull_number_nonzero n : n <> 0 -> orNull_number (Some n) = Some n.
Proof.
  intros Hn. unfold orNull_number.
  destruct (n =? 0) eqn:Hz; [apply Z.eqb_eq in Hz; contradiction|reflexivity].
Qed.

Lemma orNull_string_nonempty x : x <> Some "" -> orNull_string x = x.
Proof.
  destruct x as [s0|]; [|reflexivity]. intros Hne. unfold orNull_string.
  destruct (String.eqb s0 "") eqn:Hs; [|reflexivity].
  apply String.eqb_eq in Hs. subst. contradiction Hne; reflexivity.
Qed.

Lemma addHistoryEntry_table e db :
  fuel_split_entries (snd (addHistoryEntry e db))
  = if hasRow (id e) (fuel_split_entries db) then fuel_split_entries db
    else fuel_split_entries db ++ [entryRow e].
Proof.
  unfold addHistoryEntry; simpl.
  destruct (hasRow (id e) (fuel_split_entries db)); reflexivity.
Qed.

(** The claim C10 as it is written fails for a note that is the empty
    string: reading and difference are positive, and the note is stored as
    null all the same. *)
Lemma addHistoryEntry_empty_note_stored_null :
  reading entry_empty_note = Some 1300
  /\ deltaKm entry_empty_note = Some 73
  /\ note entry_empty_note = Some ""
  /\ map row_note (fuel_split_entries (snd (addHistoryEntry entry_empty_note initialDatabase)))
     = [None]
  /\ rowEntry (entryRow entry_empty_note) <> entry_empty_note.
Proof. repeat split. discriminate. Qed.

(** C10, amended. [addHistoryEntry] inserts the row [entryRow e] unless a
    row with the identifier of [e] is there already, and then it leaves the
    table as it is. In that row a reading of 0 and a difference of 0 are null,
    so that the entry read back differs from the one given. When reading and
    difference are strictly positive and the note is absent or not empty,
    every field of the row is the field given and the entry reads back
    unchanged. *)
Theorem addHistoryEntry_stores_falsy_as_null :
  forall e db,
    fuel_split_entries (snd (addHistoryEntry e db))
    = (if hasRow (id e) (fuel_split_entries db) then fuel_split_entries db
       else fuel_split_entries db ++ [entryRow e])
    /\ (reading e = Some 0 ->
        row_reading (entryRow e) = None /\ rowEntry (entryRow e) <> e)
    /\ (deltaKm e = Some 0 ->
        row_delta_km (entryRow e) = None /\ rowEntry (entryRow e) <> e)
    /\ (forall r d,
          reading e = Some r -> 0 < r -> deltaKm e = Some d -> 0 < d ->
          note e <> Some "" ->
          entryRow e
          = {| row_id := id e; row_type := type e; row_timestamp := timestamp e;
               row_reading := Some r; row_delta_km := Some d;
               row_attributed_to := attributedTo e; row_entered_by := enteredBy e;
               row_note := note e; row_snapshot_data := snapshot e |}
          /\ rowEntry (entryRow e) = e).
Proof.
  intros e db. split; [apply addHistoryEntry_table|].
  split; [|split].
  - intros Hr. unfold entryRow; simpl. rewrite Hr. simpl. split; [reflexivity|].
    intros Heq. apply (f_equal reading) in Heq. simpl in Heq.
    rewrite Hr in Heq. discriminate.
  - intros Hd. unfold entryRow; simpl. rewrite Hd. simpl. split; [reflexivity|].
    intros Heq. apply (f_equal deltaKm) in Heq. simpl in Heq.
    rewrite Hd in Heq. discriminate.
  - intros r d Hr Hrpos Hd Hdpos Hnote.
    assert (Hrow : entryRow e
      = {| row_id := id e; row_type := type e; row_timestamp := timestamp e;
           row_reading := Some r; row_delta_km := Some d;
           row_attributed_to := attributedTo e; row_entered_by := enteredBy e;
           row_note := note e; row_snapshot_data := snapshot e |}).
    { unfold entryRow, orNull_user. rewrite Hr, Hd.
      rewrite (orNull_number_nonzero r) by lia.
      rewrite (orNull_number_nonzero d) by lia.
      rewrite (orNull_string_nonempty (note e) Hnote). reflexivity. }
    split; [exact Hrow|].
    rewrite Hrow. destruct e; simpl in *. subst. reflexivity.
Qed.

Lemma addHistoryEntry_stores_falsy_as_null_witness :
  (deltaKm entry_no_change = Some 0 /\
   row_delta_km (entryRow entry_no_change) = None /\
   rowEntry (entryRow entry_no_change) <> entry_no_change)
  /\ (reading entry_1180 = Some 1180 /\ 0 < 1180 /\ deltaKm entry_1180 = Some 180
      /\ 0 < 180 /\ note entry_1180 <> Some ""
      /\ rowEntry (entryRow entry_1180) = entry_1180).
Proof.
  split.
  - split; [reflexivity|].
    exact (proj1 (proj2 (proj2 (addHistoryEntry_stores_falsy_as_null
                                  entry_no_change initialDatabase))) eq_refl).
  - split; [reflexivity|]. split; [reflexivity|]. split; [reflexivity|].
    split; [reflexivity|]. split; [discriminate|].
    refine (proj2 (proj2 (proj2 (proj2 (addHistoryEntry_stores_falsy_as_null
              entry_1180 initialDatabase))) 1180 180 eq_refl _ eq_refl _ _));
      [reflexivity | reflexivity | discriminate].
Defined.

(** ** Lists: the last match, the records after the latest reset *)

Lemma findLast_app_last {A} (p : A -> bool) (l : list A) (x : A) :
  findLast p (l ++ [x]) = if p x then Some x else findLast p l.
Proof.
  induction l as [|y l IH]; simpl.
  - destruct (p x); reflexivity.
  - rewrite IH. destruct (p x); [reflexivity|].
    destruct (findLast p l); reflexivity.
Qed.

Lemma findLast_None {A} (p : A -> bool) (l : list A) :
  findLast p l = None <-> forall x, In x l -> p x = false.
Proof.
  induction l as [|y l IH]; simpl.
  - split; [intros _ x []|reflexivity].
  - destruct (findLast p l) as [z|] eqn:Hl.
    + split; [discriminate|]. intros Hall.
      assert (Hnone : Some z = None) by (apply IH; intros x Hx; apply Hall; right; exact Hx).
      discriminate.
    + destruct (p y) eqn:Hy.
      * split; [discriminate|]. intros Hall.
        rewrite (Hall y (or_introl eq_refl)) in Hy. discriminate.
      * split; [|reflexivity]. intros _ x [<-|Hx]; [exact Hy|].
        apply IH; [reflexivity|exact Hx].
Qed.

Lemma findLast_Some {A} (p : A -> bool) (l : list A) (x : A) :
  findLast p l = Some x ->
  exists l1 l2, l = l1 ++ x :: l2 /\ p x = true /\ forall y, In y l2 -> p y = false.
Proof.
  induction l as [|y l IH]; simpl; [discriminate|].
  destruct (findLast p l) as [z|] eqn:Hl.
  - intros Hx. injection Hx as ->.
    destruct (IH eq_refl) as (l1 & l2 & -> & Hp & Hl2).
    exists (y :: l1), l2. repeat split; assumption.
  - destruct (p y) eqn:Hy; [|discriminate].
    intros Hx. injection Hx as ->.
    exists [], l. repeat split; [exact Hy|].
    apply findLast_None. exact Hl.
Qed.

(** Removing by identifier removes one record when identifiers are
    distinct. *)
Lemma filter_id_fresh (i : string) (l : list Entry) :
  ~ In i (map id l) ->
  filter (fun e => negb (String.eqb (id e) i)) l = l.
Proof.
  induction l as [|y l IH]; simpl; [reflexivity|].
  intros Hnot. destruct (String.eqb (id y) i) eqn:Hy; simpl.
  - apply String.eqb_eq in Hy. contradiction Hnot. left; exact Hy.
  - rewrite IH; [reflexivity|]. intros Hin. apply Hnot. right; exact Hin.
Qed.

Lemma filter_id_NoDup (l1 l2 : list Entry) (x : Entry) :
  NoDup (map id (l1 ++ x :: l2)) ->
  filter (fun e => negb (String.eqb (id e) (id x))) (l1 ++ x :: l2) = l1 ++ l2.
Proof.
  intros Hnd. rewrite map_app in Hnd; simpl in Hnd.
  pose proof (NoDup_remove_2 _ _ _ Hnd) as Hnot.
  rewrite filter_app; simpl. rewrite String.eqb_refl; simpl.
  rewrite !filter_id_fresh; [reflexivity| |];
    intros Hin; apply Hnot, in_or_app; [right|left]; exact Hin.
Qed.

Lemma afterLatestReset_no_reset (l : list Entry) :
  existsb isReset l = false -> afterLatestReset l = l.
Proof.
  destruct l as [|e l]; simpl; [reflexivity|].
  intros H. apply orb_false_iff in H as [He Hl]. rewrite Hl, He. reflexivity.
Qed.

Lemma afterLatestReset_app (l1 l2 : list Entry) :
  afterLatestReset (l1 ++ l2)
  = if existsb isReset l2 then afterLatestReset l2 else afterLatestReset l1 ++ l2.
Proof.
  induction l1 as [|e l1 IH]; simpl.
  - destruct (existsb isReset l2) eqn:H2; [reflexivity|].
    apply afterLatestReset_no_reset; exact H2.
  - rewrite existsb_app, IH.
    destruct (existsb isReset l2); [rewrite orb_true_r; reflexivity|].
    rewrite orb_false_r.
    destruct (existsb isReset l1); [reflexivity|].
    destruct (isReset e); reflexivity.
Qed.

Lemma afterLatestReset_incl (l : list Entry) :
  forall e, In e (afterLatestReset l) -> In e l.
Proof.
  induction l as [|y l IH]; simpl; [tauto|].
  intros e. destruct (existsb isReset l).
  - intros H; right; apply IH; exact H.
  - destruct (isReset y); simpl; tauto.
Qed.

Example afterLatestReset_worked :
  afterLatestReset [entry_1000; entry_1180; entry_reset; entry_1227] = [entry_1227]
  /\ afterLatestReset [entry_1000; entry_1180; entry_1227] = [entry_1000; entry_1180; entry_1227]
  /\ afterLatestReset [entry_1180; entry_reset] = []
  /\ sumDeltaKm [entry_1000; entry_1180; entry_1227] = 227.
Proof. repeat split. Qed.

Lemma creditedKm_app u (l1 l2 : list Entry) :
  creditedKm u (l1 ++ l2) = creditedKm u l1 + creditedKm u l2.
Proof. induction l1 as [|e l1 IH]; simpl; [reflexivity|rewrite IH; lia]. Qed.

Lemma creditedKm_no_entry u (l : list Entry) :
  (forall e, In e l -> isEntry e = false) -> creditedKm u l = 0.
Proof.
  induction l as [|e l IH]; simpl; [reflexivity|]. intros Hall.
  rewrite (Hall e (or_introl eq_refl)); simpl.
  apply IH. intros y Hy; apply Hall; right; exact Hy.
Qed.

Lemma isEntry_type e : isEntry e = true <-> type e = entry.
Proof. unfold isEntry. destruct (type e); simpl; split; congruence. Qed.

Lemma isEntry_false_type e : isEntry e = false <-> type e <> entry.
Proof. unfold isEntry. destruct (type e); simpl; split; congruence. Qed.

Lemma creditedKm_nonneg u (l : list Entry) :
  (forall e, In e l -> type e = entry -> exists d a,
      deltaKm e = Some d /\ 0 <= d /\ attributedTo e = Some a) ->
  0 <= creditedKm u l.
Proof.
  induction l as [|e l IH]; simpl; [lia|]. intros Hall.
  assert (0 <= creditedKm u l) by (apply IH; intros y Hy; apply Hall; right; exact Hy).
  destruct (isEntry e) eqn:He; simpl; [|lia].
  destruct (attributedToUser u e); [|lia].
  destruct (Hall e (or_introl eq_refl) (proj1 (isEntry_type e) He)) as (d & a & -> & Hd & _).
  simpl; lia.
Qed.


(** ** Undo *)

Lemma undoLastEntry_found s db x :
  findLast isEntry (history s) = Some x ->
  undoLastEntry s db
  = (Ok (undoStateOf s x),
     snd (saveAppState (undoStateOf s x) (snd (removeEntry (id x) db)))).
Proof. intros Hx. unfold undoLastEntry. rewrite Hx. reflexivity. Qed.

Lemma undoLastEntry_nothing s db :
  findLast isEntry (history s) = None ->
  undoLastEntry s db = (Err (mkError NothingToUndo "No entry to undo"), db).
Proof. intros Hx. unfold undoLastEntry. rewrite Hx. reflexivity. Qed.

Lemma no_entry_findLast (h : list Entry) :
  findLast isEntry h = None <-> forall e, In e h -> type e <> entry.
Proof.
  rewrite findLast_None. split; intros H e He.
  - apply isEntry_false_type, H, He.
  - apply isEntry_false_type, H, He.
Qed.

(** C7. [undoLastEntry] fails exactly when the history has no record of
    type entry; the failure is NothingToUndo, nothing is written and the
    page keeps its state. When there is such a record it succeeds: it takes
    the most recent record of type entry and drops the records that carry
    its identifier. Identifiers being pairwise distinct, the history it
    returns is the one given without that one record: every other record, so
    every init and reset record, stays. *)
Theorem undoLastEntry_removes_last_entry :
  forall s db,
    ((exists err, fst (undoLastEntry s db) = Err err)
       <-> (forall e, In e (history s) -> type e <> entry))
    /\ ((forall e, In e (history s) -> type e <> entry) ->
          undoLastEntry s db = (Err (mkError NothingToUndo "No entry to undo"), db)
          /\ forall u, undoLast (mkPage u (Some s)) db = (mkPage u (Some s), db))
    /\ ((exists e, In e (history s) /\ type e = entry) ->
        exists s' db' l1 x l2,
          undoLastEntry s db = (Ok s', db')
          /\ history s = l1 ++ x :: l2
          /\ type x = entry
          /\ (forall y, In y l2 -> type y <> entry)
          /\ history s' = filter (fun e => negb (String.eqb (id e) (id x))) (history s)
          /\ (NoDup (map id (history s)) ->
              history s' = l1 ++ l2
              /\ forall y, In y (history s) -> type y <> entry -> In y (history s'))).
Proof.
  intros s db. split; [|split].
  - destruct (findLast isEntry (history s)) as [x|] eqn:Hx.
    + rewrite (undoLastEntry_found s db x Hx); simpl. split.
      * intros [err Herr]; discriminate.
      * intros Hnone. pose proof (proj2 (no_entry_findLast _) Hnone). congruence.
    + rewrite (undoLastEntry_nothing s db Hx); simpl. split.
      * intros _. apply no_entry_findLast; exact Hx.
      * intros _. eexists; reflexivity.
  - intros Hnone'. pose proof (proj2 (no_entry_findLast _) Hnone') as Hnone.
    split; [apply undoLastEntry_nothing; exact Hnone|].
    intros u. unfold undoLast; simpl. rewrite Hnone. reflexivity.
  - intros (e & He & Hte).
    destruct (findLast isEntry (history s)) as [x|] eqn:Hx.
    + destruct (findLast_Some _ _ _ Hx) as (l1 & l2 & Hh & Hpx & Hl2).
      exists (undoStateOf s x). eexists. exists l1, x, l2.
      split; [apply undoLastEntry_found; exact Hx|].
      split; [exact Hh|]. split; [apply isEntry_type; exact Hpx|].
      split; [intros y Hy; apply isEntry_false_type, Hl2, Hy|].
      split; [reflexivity|].
      intros Hnd.
      assert (Hnew : history (undoStateOf s x) = l1 ++ l2).
      { simpl. rewrite Hh. apply filter_id_NoDup. rewrite <- Hh. exact Hnd. }
      split; [exact Hnew|].
      intros y Hy Hty. rewrite Hnew. rewrite Hh in Hy.
      apply in_app_or in Hy as [Hy|[Hy|Hy]]; apply in_or_app.
      * left; exact Hy.
      * subst y. apply isEntry_type in Hpx. contradiction.
      * right; exact Hy.
    + exfalso. exact (proj1 (no_entry_findLast _) Hx e He Hte).
Qed.

Lemma worked_ledger_ids : NoDup (map id (history state_1227)).
Proof.
  simpl. repeat constructor; simpl; intuition discriminate.
Defined.

Lemma undoLastEntry_removes_last_entry_witness :
  (exists e, In e (history state_1227) /\ type e = entry)
  /\ NoDup (map id (history state_1227))
  /\ exists s' db' l1 x l2,
      undoLastEntry state_1227 initialDatabase = (Ok s', db')
      /\ history state_1227 = l1 ++ x :: l2
      /\ type x = entry
      /\ (forall y, In y l2 -> type y <> entry)
      /\ history s'
         = filter (fun e => negb (String.eqb (id e) (id x))) (history state_1227)
      /\ (NoDup (map id (history state_1227)) ->
          history s' = l1 ++ l2
          /\ forall y, In y (history state_1227) -> type y <> entry -> In y (history s')).
Proof.
  assert (Hex : exists e, In e (history state_1227) /\ type e = entry).
  { exists entry_1227. split; [simpl; tauto|reflexivity]. }
  split; [exact Hex|]. split; [exact worked_ledger_ids|].
  exact (proj2 (proj2 (undoLastEntry_removes_last_entry state_1227 initialDatabase))
           Hex).
Defined.

Example undo_worked_ledger :
  fst (undoLastEntry state_1227 initialDatabase)
  = Ok {| version := 1; pricePerKm := 1 # 2; startingOdometer := 1000;
          lastOdometer := Some 1180; kmBy := mkKmBy 180 0;
          history := [entry_1000; entry_1180]; lastEnteredBy := Some Amit |}.
Proof. reflexivity. Qed.

(** ** Every reachable state is consistent *)

Lemma afterLatestReset_snoc (h : list Entry) (e : Entry) :
  afterLatestReset (h ++ [e]) = if isReset e then [] else afterLatestReset h ++ [e].
Proof.
  rewrite afterLatestReset_app. simpl. rewrite orb_false_r.
  destruct (isReset e); reflexivity.
Qed.

Lemma lastReading_snoc (h : list Entry) (e : Entry) :
  lastReading (h ++ [e]) = if hasReading e then reading e else lastReading h.
Proof.
  unfold lastReading. rewrite findLast_app_last.
  destruct (hasReading e); reflexivity.
Qed.

Lemma NoDup_ids_snoc (h : list Entry) (e : Entry) :
  NoDup (map id h) -> ~ In (id e) (map id h) -> NoDup (map id (h ++ [e])).
Proof.
  intros Hnd Hfresh. rewrite map_app. apply NoDup_app; [exact Hnd| |].
  - simpl. constructor; [simpl; tauto|constructor].
  - simpl. intros a Ha [<-|[]]. exact (Hfresh Ha).
Qed.

Lemma consistent_initial : consistent initialState.
Proof.
  constructor; simpl.
  - constructor.
  - intros e [].
  - intros []; reflexivity.
  - reflexivity.
Qed.

(** Appending a record keeps a state consistent when the totals and the
    odometer move with it. *)
Lemma consistent_append (s s' : AppState) (e : Entry) :
  history s' = history s ++ [e] ->
  consistent s ->
  ~ In (id e) (map id (history s)) ->
  (type e = entry ->
   exists d a, deltaKm e = Some d /\ 0 <= d /\ attributedTo e = Some a) ->
  (forall u, kmOf (kmBy s') u
             = if isReset e then 0 else kmOf (kmBy s) u + creditedKm u [e]) ->
  lastOdometer s' = (if hasReading e then reading e else lastOdometer s) ->
  consistent s'.
Proof.
  intros Hhist [Hids Hent Hcredit Hodo] Hfresh He Hkm Hlast.
  constructor; rewrite Hhist.
  - apply NoDup_ids_snoc; assumption.
  - intros y Hy Hty. apply in_app_or in Hy as [Hy|[<-|[]]].
    + exact (Hent y Hy Hty).
    + exact (He Hty).
  - intros u. rewrite Hkm, afterLatestReset_snoc.
    destruct (isReset e); [reflexivity|].
    rewrite creditedKm_app, Hcredit. reflexivity.
  - rewrite Hlast, lastReading_snoc, Hodo. reflexivity.
Qed.

Lemma addMileageEntry_consistent newId now u r s db s' db' :
  consistent s ->
  ~ In newId (map id (history s)) ->
  addMileageEntry newId now u r s db = (Ok s', db') ->
  consistent s'.
Proof.
  intros Hs Hfresh Hrun.
  destruct (lastOdometer s) as [last|] eqn:Hlast.
  - destruct (Z.lt_ge_cases r last) as [Hlt|Hge].
    { rewrite (addMileageEntry_negative newId now u r s db last Hlast Hlt) in Hrun.
      discriminate. }
    destruct (Z.eq_dec r last) as [->|Hne].
    + rewrite (addMileageEntry_zero newId now u s db last Hlast) in Hrun.
      injection Hrun as <- _.
      eapply consistent_append; [reflexivity|exact Hs|exact Hfresh| | |reflexivity].
      * intros _. exists 0, (OTHER u). repeat split; simpl; lia.
      * intros w; simpl. destruct (attributedToUser w _); simpl; lia.
    + rewrite (addMileageEntry_positive newId now u r s db last Hlast) in Hrun by lia.
      injection Hrun as <- _.
      eapply consistent_append; [reflexivity|exact Hs|exact Hfresh| | |reflexivity].
      * intros _. exists (r - last), (OTHER u). repeat split; simpl; lia.
      * intros w; simpl. unfold attributedToUser; simpl.
        destruct (User_eq_dec (OTHER u) w) as [<-|Hw]; simpl.
        -- rewrite kmOf_kmSet_same. lia.
        -- rewrite kmOf_kmSet_other by exact Hw. lia.
  - rewrite (addMileageEntry_first newId now u r s db Hlast) in Hrun.
    injection Hrun as <- _.
    eapply consistent_append; [reflexivity|exact Hs|exact Hfresh| | |reflexivity].
    + discriminate.
    + intros w; simpl. lia.
Qed.

Lemma resetAndGetMessage_consistent fc tl newId now s db r db' :
  consistent s ->
  ~ In newId (map id (history s)) ->
  resetAndGetMessage fc tl newId now s db = (Ok r, db') ->
  consistent (newState r).
Proof.
  intros Hs Hfresh Hrun.
  destruct (resetAndGetMessage_succeeds fc tl newId now s db) as (msg & Heq).
  rewrite Heq in Hrun. injection Hrun as <- _. simpl.
  eapply consistent_append with (e := resetEntryOf newId now s);
    [reflexivity|exact Hs|exact Hfresh| | |reflexivity].
  - discriminate.
  - intros w; simpl. destruct w; reflexivity.
Qed.

Lemma updateSettings_consistent p o s db s' db' :
  consistent s ->
  updateSettings p o s db = (Ok s', db') ->
  consistent s'.
Proof.
  intros [Hids Hent Hcredit Hodo] Hrun. unfold updateSettings in Hrun.
  destruct (Qle_bool p 0); [discriminate|].
  destruct (o <? 0); [discriminate|].
  injection Hrun as <- _. constructor; assumption.
Qed.

Lemma undoLastEntry_consistent s db s' db' :
  consistent s ->
  undoLastEntry s db = (Ok s', db') ->
  consistent s'.
Proof.
  intros [Hids Hent Hcredit Hodo] Hrun.
  destruct (findLast isEntry (history s)) as [x|] eqn:Hx;
    [|rewrite (undoLastEntry_nothing s db Hx) in Hrun; discriminate].
  rewrite (undoLastEntry_found s db x Hx) in Hrun. injection Hrun as <- _.
  destruct (findLast_Some _ _ _ Hx) as (l1 & l2 & Hh & Hpx & Hl2).
  assert (Hnew : history (undoStateOf s x) = l1 ++ l2).
  { simpl. rewrite Hh. apply filter_id_NoDup. rewrite <- Hh. exact Hids. }
  assert (Hsub : forall y, In y (l1 ++ l2) -> In y (history s)).
  { intros y Hy. rewrite Hh. apply in_app_or in Hy as [Hy|Hy]; apply in_or_app;
      [left|right; right]; exact Hy. }
  destruct (Hent x) as (d & a & Hd & Hdpos & Ha);
    [rewrite Hh; apply in_or_app; right; left; reflexivity
    |apply isEntry_type; exact Hpx|].
  constructor.
  - rewrite Hnew. rewrite Hh, map_app in Hids; simpl in Hids.
    rewrite map_app. exact (NoDup_remove_1 _ _ _ Hids).
  - intros y Hy. rewrite Hnew in Hy. exact (Hent y (Hsub y Hy)).
  - intros w. rewrite Hnew. unfold undoStateOf; cbv zeta.
    cbn [kmBy]. rewrite Ha, Hd; cbn [orZero].
    pose proof (Hcredit w) as Hw. pose proof (Hcredit a) as Hwa.
    rewrite Hh in Hw, Hwa.
    rewrite afterLatestReset_app in Hw, Hwa |- *.
    assert (Hreset : existsb isReset (x :: l2) = existsb isReset l2).
    { simpl. unfold isReset. apply isEntry_type in Hpx. rewrite Hpx. reflexivity. }
    rewrite Hreset in Hw, Hwa.
    assert (Hl2zero : forall v, creditedKm v l2 = 0)
      by (intros v; apply creditedKm_no_entry; exact Hl2).
    destruct (existsb isReset l2) eqn:Hr2.
    + (* the record undone lies before the latest reset: the totals are 0 *)
      assert (Hzero : forall v, creditedKm v (afterLatestReset l2) = 0).
      { intros v. apply creditedKm_no_entry. intros y Hy.
        apply Hl2, afterLatestReset_incl, Hy. }
      assert (Hx2 : afterLatestReset (x :: l2) = afterLatestReset l2)
        by (simpl; rewrite Hr2; reflexivity).
      rewrite Hx2 in Hw, Hwa. rewrite Hzero in Hw, Hwa |- *.
      destruct (0 <? d); [|exact Hw].
      destruct (User_eq_dec a w) as [<-|Hne].
      * rewrite kmOf_kmSet_same. lia.
      * rewrite kmOf_kmSet_other by exact Hne. exact Hw.
    + (* the record undone lies after it *)
      rewrite creditedKm_app in Hw, Hwa |- *. rewrite Hl2zero.
      assert (Hcons : forall v, creditedKm v (x :: l2)
                = (if attributedToUser v x then d else 0)).
      { intros v. simpl. rewrite Hpx, Hd, Hl2zero. simpl.
        destruct (attributedToUser v x); lia. }
      rewrite Hcons in Hw, Hwa.
      assert (Hnonneg : 0 <= creditedKm a (afterLatestReset l1)).
      { apply creditedKm_nonneg. intros y Hy. apply Hent. rewrite Hh.
        apply in_or_app; left. apply afterLatestReset_incl, Hy. }
      unfold attributedToUser in Hw, Hwa. rewrite Ha in Hw, Hwa.
      destruct (User_eq_dec a a) as [_|Hna]; [|contradiction Hna; reflexivity].
      destruct (0 <? d) eqn:Hdp.
      * destruct (User_eq_dec a w) as [<-|Hne].
        -- rewrite kmOf_kmSet_same. lia.
        -- rewrite kmOf_kmSet_other by exact Hne. lia.
      * apply Z.ltb_ge in Hdp. destruct (User_eq_dec a w); lia.
  - reflexivity.
Qed.

Lemma step_consistent s s' : consistent s -> step s s' -> consistent s'.
Proof.
  intros Hs Hstep. destruct Hstep.
  - eapply addMileageEntry_consistent; eassumption.
  - eapply undoLastEntry_consistent; eassumption.
  - eapply resetAndGetMessage_consistent; eassumption.
  - eapply updateSettings_consistent; eassumption.
Qed.

Lemma reachable_consistent s : reachable s -> consistent s.
Proof.
  induction 1 as [|s s' _ IH Hstep]; [apply consistent_initial|].
  exact (step_consistent s s' IH Hstep).
Qed.


Lemma worked_ledger_reachable : reachable state_1227.
Proof.
  apply (reachable_step state_1180).
  - apply (reachable_step state_1000).
    + apply (reachable_step initialState); [exact reachable_initial|].
      apply (step_addMileageEntry "1-aaaaaa" 1 Amit 1000 initialState initialDatabase
               state_1000
               (snd (addMileageEntry "1-aaaaaa" 1 Amit 1000 initialState initialDatabase)));
        [simpl; tauto|reflexivity].
    + apply (step_addMileageEntry "2-bbbbbb" 2 Ori 1180 state_1000 initialDatabase
               state_1180
               (snd (addMileageEntry "2-bbbbbb" 2 Ori 1180 state_1000 initialDatabase)));
        [simpl; intros [H|[]]; discriminate H|reflexivity].
  - apply (step_addMileageEntry "3-cccccc" 3 Amit 1227 state_1180 initialDatabase
             state_1227
             (snd (addMileageEntry "3-cccccc" 3 Amit 1227 state_1180 initialDatabase)));
      [simpl; intros [H|[H|[]]]; discriminate H|reflexivity].
Defined.

(** The premise of [step] on identifiers is needed: a reading recorded under
    an identifier the history has already makes the next undo remove both
    records and reverse one. *)
Remark repeated_id_breaks_totals :
  exists s1 db1 s2 db2,
    addMileageEntry "2-bbbbbb" 3 Amit 1227 state_1180 initialDatabase = (Ok s1, db1)
    /\ undoLastEntry s1 db1 = (Ok s2, db2)
    /\ history s2 = [entry_1000]
    /\ kmOf (kmBy s2) Amit + kmOf (kmBy s2) Ori = 180
    /\ sumDeltaKm (afterLatestReset (history s2)) = 0.
Proof.
  do 4 eexists.
  split; [cbv; reflexivity|]. split; [cbv; reflexivity|].
  repeat split.
Qed.

(** ** Undo after a reading *)




(** Every reachable state meets the conditions of the theorem: its
    odometer is the last reading of its history, its totals are not
    negative and its identifiers are distinct. *)
Lemma reachable_undo_conditions :
  forall s,
    reachable s ->
    lastOdometer s = lastReading (history s)
    /\ (forall u, 0 <= kmOf (kmBy s) u)
    /\ NoDup (map id (history s)).
Proof.
  intros s Hs. destruct (reachable_consistent s Hs) as [Hids Hent Hcredit Hodo].
  split; [exact Hodo|]. split; [|exact Hids].
  intros u. rewrite Hcredit. apply creditedKm_nonneg.
  intros e He. apply Hent, afterLatestReset_incl, He.
Qed.

(** ** The two pages agree

    The page that keeps the ledger in local storage computes the states the
    server actions return, so that what is proved of the actions holds of
    it. *)

Lemma local_addMileage_agrees newId now u r prev db :
  state (fst (addMileage newId now r (mkPage (Some u) (Some prev)) db))
  = Some (LocalPage.addMileage newId now (Some u) r prev).
Proof.
  unfold addMileage, LocalPage.addMileage; simpl.
  destruct (r <? 0); [reflexivity|].
  unfold addMileageEntry.
  destruct (lastOdometer prev) as [last|]; [|reflexivity].
  destruct (r - last <? 0); [reflexivity|].
  destruct (r - last =? 0); reflexivity.
Qed.

Lemma local_doResetAndShare_agrees fc tl newId now u prev db :
  let local := LocalPage.doResetAndShare fc tl newId now prev in
  exists db',
    doResetAndShare fc tl newId now (mkPage u (Some prev)) db
    = (mkPage u (Some (snd local)), db', Some (fst local)).
Proof. eexists. reflexivity. Qed.

Lemma local_saveSettings_agrees p o u prev db :
  state (fst (saveSettings p o (mkPage u (Some prev)) db))
  = Some (LocalPage.saveSettings p o prev).
Proof.
  unfold saveSettings, LocalPage.saveSettings, updateSettings; simpl.
  destruct (Qle_bool p 0); [reflexivity|].
  destruct (o <? 0); reflexivity.
Qed.

Lemma removeFirstWithId_fresh (i : string) (l : list Entry) :
  ~ In i (map id l) -> LocalPage.removeFirstWithId i l = None.
Proof.
  induction l as [|y l IH]; simpl; [reflexivity|].
  intros Hnot. destruct (String.eqb (id y) i) eqn:Hy.
  - apply String.eqb_eq in Hy. contradiction Hnot. left; exact Hy.
  - rewrite IH; [reflexivity|]. intros Hin. apply Hnot. right; exact Hin.
Qed.

Lemma removeFirstWithId_NoDup (l1 l2 : list Entry) (x : Entry) :
  NoDup (map id (l1 ++ x :: l2)) ->
  LocalPage.removeFirstWithId (id x) (l1 ++ x :: l2) = Some (l1 ++ l2).
Proof.
  intros Hnd. rewrite map_app in Hnd; simpl in Hnd.
  pose proof (NoDup_remove_2 _ _ _ Hnd) as Hnot.
  assert (Hl1 : ~ In (id x) (map id l1))
    by (intros Hin; apply Hnot, in_or_app; left; exact Hin).
  clear Hnd Hnot. induction l1 as [|y l1 IH]; simpl.
  - rewrite String.eqb_refl. reflexivity.
  - destruct (String.eqb (id y) (id x)) eqn:Hy.
    + apply String.eqb_eq in Hy. contradiction Hl1. left; exact Hy.
    + rewrite IH; [reflexivity|]. intros Hin. apply Hl1. right; exact Hin.
Qed.

(** The local page removes the first record that carries the identifier,
    the action every record that does: the same when identifiers are
    distinct. *)
Lemma local_undoLast_agrees u prev db :
  NoDup (map id (history prev)) ->
  state (fst (undoLast (mkPage u (Some prev)) db))
  = Some (LocalPage.undoLast prev).
Proof.
  intros Hnd. unfold undoLast, LocalPage.undoLast; simpl.
  destruct (findLast isEntry (history prev)) as [x|] eqn:Hx; [|reflexivity].
  rewrite (undoLastEntry_found prev db x Hx); simpl.
  destruct (findLast_Some _ _ _ Hx) as (l1 & l2 & Hh & _ & _).
  unfold undoStateOf, lastReading.
  rewrite Hh in Hnd |- *.
  rewrite (removeFirstWithId_NoDup l1 l2 x Hnd), (filter_id_NoDup l1 l2 x Hnd).
  reflexivity.
Qed.

(** ** The actions on the identities of the store

    What the actions compute for the identities and the states the page
    that calls them hands over: the name John, and totals under the keys
    Amit and John. *)

Lemma Runtime_get_set_same (k : string) (v : Runtime.Num) (o : Runtime.Obj) :
  Runtime.get k (Runtime.set k v o) = Some v.
Proof.
  induction o as [|[k' v'] o IH]; simpl.
  - rewrite String.eqb_refl. reflexivity.
  - destruct (String.eqb k' k) eqn:Hk; simpl.
    + rewrite String.eqb_refl. reflexivity.
    + rewrite Hk. exact IH.
Qed.

Lemma Runtime_get_set_other (k k' : string) (v : Runtime.Num) (o : Runtime.Obj) :
  k <> k' -> Runtime.get k' (Runtime.set k v o) = Runtime.get k' o.
Proof.
  intros Hne. induction o as [|[k0 v0] o IH]; simpl.
  - destruct (String.eqb k k') eqn:Hk; [|reflexivity].
    apply String.eqb_eq in Hk. contradiction.
  - destruct (String.eqb k0 k) eqn:Hk0; simpl.
    + apply String.eqb_eq in Hk0. subst k0.
      destruct (String.eqb k k') eqn:Hk; [|reflexivity].
      apply String.eqb_eq in Hk. contradiction.
    + rewrite IH. reflexivity.
Qed.

(** On a store that takes every call, the two calls every action ends
    with ([Runtime.record_addEntry], [Runtime.record_saveAppState]). *)
Example Runtime_John_records_1180 :
  Runtime.addMileageEntry (list Runtime.Call)
    Runtime.record_addEntry Runtime.record_saveAppState
    "2-bbbbbb" 2 "John" 1180 Runtime.loaded_1000 []
  = (Ok {| Runtime.version := 1;
           Runtime.pricePerKm := Runtime.Fin (1 # 2);
           Runtime.startingOdometer := Runtime.Int 1000;
           Runtime.lastOdometer := Some 1180;
           Runtime.kmBy := [("Amit", Runtime.Int 0); ("John", Runtime.Int 0);
                            ("undefined", Runtime.NaN)];
           Runtime.history :=
             [Runtime.entry_1000;
              {| Runtime.id := "2-bbbbbb"; Runtime.type := entry;
                 Runtime.timestamp := 2; Runtime.reading := Some 1180;
                 Runtime.deltaKm := Some 180; Runtime.attributedTo := None;
                 Runtime.enteredBy := Some "John"; Runtime.note := None;
                 Runtime.snapshot := None |}];
           Runtime.lastEnteredBy := Some "John" |},
     [Runtime.AddEntry
        {| Runtime.id := "2-bbbbbb"; Runtime.type := entry;
           Runtime.timestamp := 2; Runtime.reading := Some 1180;
           Runtime.deltaKm := Some 180; Runtime.attributedTo := None;
           Runtime.enteredBy := Some "John"; Runtime.note := None;
           Runtime.snapshot := None |};
      Runtime.SaveAppState
        {| Runtime.version := 1;
           Runtime.pricePerKm := Runtime.Fin (1 # 2);
           Runtime.startingOdometer := Runtime.Int 1000;
           Runtime.lastOdometer := Some 1180;
           Runtime.kmBy := [("Amit", Runtime.Int 0); ("John", Runtime.Int 0);
                            ("undefined", Runtime.NaN)];
           Runtime.history := [Runtime.entry_1000];
           Runtime.lastEnteredBy := Some "John" |}]).
Proof. reflexivity. Qed.

Example Runtime_Amit_records_1180 :
  exists s' calls,
    Runtime.addMileageEntry (list Runtime.Call)
      Runtime.record_addEntry Runtime.record_saveAppState
      "2-bbbbbb" 2 "Amit" 1180 Runtime.loaded_1000 [] = (Ok s', calls)
    /\ Runtime.kmBy s'
       = [("Amit", Runtime.Int 0); ("John", Runtime.Int 0); ("Ori", Runtime.NaN)].
Proof. eexists; eexists. split; [cbv; reflexivity|reflexivity]. Qed.

Section RuntimeProperties.

Variable Store : Type.
Variable addEntry : Runtime.Entry -> Runtime.Action Store unit.
Variable saveAppState : Runtime.AppState -> Runtime.Action Store unit.

(** The store takes the calls. *)
Hypothesis addEntry_accepts : forall e st, fst (addEntry e st) = Ok tt.
Hypothesis saveAppState_accepts : forall s st, fst (saveAppState s st) = Ok tt.

Lemma Runtime_saved {A} (s : Runtime.AppState) (a : A) st :
  fst (Runtime.bind (saveAppState s) (fun _ => Runtime.ret a) st) = Ok a.
Proof.
  unfold Runtime.bind, Runtime.ret.
  pose proof (saveAppState_accepts s st) as Hs.
  destruct (saveAppState s st) as [r st']. simpl in Hs. subst r. reflexivity.
Qed.

Lemma Runtime_stored {A} (e : Runtime.Entry) (s : Runtime.AppState) (a : A) st :
  fst (Runtime.bind (addEntry e)
         (fun _ => Runtime.bind (saveAppState s) (fun _ => Runtime.ret a)) st)
  = Ok a.
Proof.
  unfold Runtime.bind at 1.
  pose proof (addEntry_accepts e st) as He.
  destruct (addEntry e st) as [r st']. simpl in He. subst r.
  apply Runtime_saved.
Qed.

(** The state of the branch [delta > 0]. *)
Lemma Runtime_addMileageEntry_positive newId now u r s st last :
  Runtime.lastOdometer s = Some last -> 0 < r - last ->
  fst (Runtime.addMileageEntry Store addEntry saveAppState newId now u r s st)
  = Ok {| Runtime.version := Runtime.version s;
          Runtime.pricePerKm := Runtime.pricePerKm s;
          Runtime.startingOdometer := Runtime.startingOdometer s;
          Runtime.lastOdometer := Some r;
          Runtime.kmBy :=
            Runtime.set (Runtime.keyOf (lookup u OTHER_table))
              (Runtime.plus
                 (Runtime.get (Runtime.keyOf (lookup u OTHER_table)) (Runtime.kmBy s))
                 (r - last))
              (Runtime.kmBy s);
          Runtime.history :=
            Runtime.history s
            ++ [{| Runtime.id := newId; Runtime.type := entry;
                   Runtime.timestamp := now; Runtime.reading := Some r;
                   Runtime.deltaKm := Some (r - last);
                   Runtime.attributedTo := lookup u OTHER_table;
                   Runtime.enteredBy := Some u; Runtime.note := None;
                   Runtime.snapshot := None |}];
          Runtime.lastEnteredBy := Some u |}.
Proof.
  intros Hlast Hpos. unfold Runtime.addMileageEntry. rewrite Hlast.
  destruct (r - last <? 0) eqn:Hneg; [apply Z.ltb_lt in Hneg; lia|].
  destruct (r - last =? 0) eqn:Hz; [apply Z.eqb_eq in Hz; lia|].
  unfold Runtime.bind at 1, Runtime.ret at 1. cbv zeta. cbn [fst snd].
  apply Runtime_stored.
Qed.

(** The state of the first reading. *)
Lemma Runtime_addMileageEntry_first newId now u r s st :
  Runtime.lastOdometer s = None ->
  fst (Runtime.addMileageEntry Store addEntry saveAppState newId now u r s st)
  = Ok {| Runtime.version := Runtime.version s;
          Runtime.pricePerKm := Runtime.pricePerKm s;
          Runtime.startingOdometer := Runtime.Int r;
          Runtime.lastOdometer := Some r;
          Runtime.kmBy := Runtime.kmBy s;
          Runtime.history :=
            Runtime.history s
            ++ [{| Runtime.id := newId; Runtime.type := init;
                   Runtime.timestamp := now; Runtime.reading := Some r;
                   Runtime.deltaKm := None; Runtime.attributedTo := None;
                   Runtime.enteredBy := Some u;
                   Runtime.note := Some "Initial reading set";
                   Runtime.snapshot := None |}];
          Runtime.lastEnteredBy := Some u |}.
Proof.
  intros Hlast. unfold Runtime.addMileageEntry. rewrite Hlast.
  unfold Runtime.bind at 1, Runtime.ret at 1. cbv zeta. cbn [fst snd].
  apply Runtime_stored.
Qed.

(** C2. The page that calls the actions signs the second user in as John,
    and the state it hands over has the totals under Amit and John. For a
    reading by John above the last odometer the table [OTHER] has no entry:
    the record is attributed to nobody, the difference goes under the key
    "undefined" and no total under any name changes. For a reading by Amit
    the record is attributed to Ori, a key the state does not have: the
    total under it becomes NaN and John's total stays as it was. *)
Theorem Runtime_addMileageEntry_credits_nobody :
  forall newId now r s st last,
    Runtime.lastOdometer s = Some last -> 0 < r - last ->
    (exists s' e,
       fst (Runtime.addMileageEntry Store addEntry saveAppState
              newId now "John" r s st) = Ok s'
       /\ Runtime.history s' = Runtime.history s ++ [e]
       /\ Runtime.type e = entry
       /\ Runtime.enteredBy e = Some "John"
       /\ Runtime.deltaKm e = Some (r - last)
       /\ Runtime.attributedTo e = None
       /\ (forall name, name <> "undefined" ->
             Runtime.get name (Runtime.kmBy s') = Runtime.get name (Runtime.kmBy s)))
    /\ (Runtime.get "Ori" (Runtime.kmBy s) = None ->
        exists s' e,
          fst (Runtime.addMileageEntry Store addEntry saveAppState
                 newId now "Amit" r s st) = Ok s'
          /\ Runtime.history s' = Runtime.history s ++ [e]
          /\ Runtime.type e = entry
          /\ Runtime.enteredBy e = Some "Amit"
          /\ Runtime.deltaKm e = Some (r - last)
          /\ Runtime.attributedTo e = Some "Ori"
          /\ Runtime.get "Ori" (Runtime.kmBy s') = Some Runtime.NaN
          /\ (forall name, name <> "Ori" ->
                Runtime.get name (Runtime.kmBy s') = Runtime.get name (Runtime.kmBy s))).
Proof.
  intros newId now r s st last Hlast Hpos. split.
  - eexists; eexists.
    split; [exact (Runtime_addMileageEntry_positive newId now "John" r s st last Hlast Hpos)|].
    simpl. repeat split.
    intros name Hname. apply Runtime_get_set_other.
    intros Heq. apply Hname. symmetry. exact Heq.
  - intros HOri. eexists; eexists.
    split; [exact (Runtime_addMileageEntry_positive newId now "Amit" r s st last Hlast Hpos)|].
    simpl. repeat split.
    + rewrite Runtime_get_set_same, HOri. reflexivity.
    + intros name Hname. apply Runtime_get_set_other.
      intros Heq. apply Hname. symmetry. exact Heq.
Qed.

(** C1. On the state of a new installation as the store gives it, Amit
    records 1000 and John records 1180. The history then holds one entry,
    of 180 km, and no reset; the totals under Amit and John are both 0, and
    [kmBy.Amit + kmBy.Ori], the sum the actions themselves compute, is
    NaN. *)
Theorem Runtime_totals_miss_deltas :
  forall st st',
    exists s2,
      fst (Runtime.addMileageEntry Store addEntry saveAppState
             "1-aaaaaa" 1 "Amit" 1000 Runtime.loadedState st) = Ok Runtime.loaded_1000
      /\ fst (Runtime.addMileageEntry Store addEntry saveAppState
                "2-bbbbbb" 2 "John" 1180 Runtime.loaded_1000 st') = Ok s2
      /\ existsb Runtime.isReset (Runtime.history s2) = false
      /\ Runtime.sumDeltaKm (Runtime.history s2) = 180
      /\ Runtime.get "Amit" (Runtime.kmBy s2) = Some (Runtime.Int 0)
      /\ Runtime.get "John" (Runtime.kmBy s2) = Some (Runtime.Int 0)
      /\ Runtime.get "Ori" (Runtime.kmBy s2) = None
      /\ Runtime.sum (Runtime.get "Amit" (Runtime.kmBy s2))
                     (Runtime.get "John" (Runtime.kmBy s2)) = Runtime.Int 0
      /\ Runtime.sum (Runtime.get "Amit" (Runtime.kmBy s2))
                     (Runtime.get "Ori" (Runtime.kmBy s2)) = Runtime.NaN.
Proof.
  intros st st'. eexists.
  split; [exact (Runtime_addMileageEntry_first "1-aaaaaa" 1 "Amit" 1000
                   Runtime.loadedState st eq_refl)|].
  split; [exact (Runtime_addMileageEntry_positive "2-bbbbbb" 2 "John" 1180
                   Runtime.loaded_1000 st' 1000 eq_refl eq_refl)|].
  repeat split.
Qed.

Section RuntimeFormatting.

Variable formatCurrency : Runtime.Amount -> string.
Variable toLocaleString : Z -> string.

(** The reset entry and the state of a reset. *)
Lemma Runtime_resetAndGetMessage_succeeds newId now s st :
  exists msg,
    fst (Runtime.resetAndGetMessage Store addEntry saveAppState
           formatCurrency toLocaleString newId now s st)
    = Ok {| Runtime.message := msg;
            Runtime.newState :=
              {| Runtime.version := Runtime.version s;
                 Runtime.pricePerKm := Runtime.pricePerKm s;
                 Runtime.startingOdometer :=
                   match Runtime.lastOdometer s with
                   | Some last => Runtime.Int last
                   | None => Runtime.startingOdometer s
                   end;
                 Runtime.lastOdometer := Runtime.lastOdometer s;
                 Runtime.kmBy := [("Amit", Runtime.Int 0); ("Ori", Runtime.Int 0)];
                 Runtime.history :=
                   Runtime.history s
                   ++ [{| Runtime.id := newId; Runtime.type := reset;
                          Runtime.timestamp := now; Runtime.reading := None;
                          Runtime.deltaKm := None; Runtime.attributedTo := None;
                          Runtime.enteredBy := None;
                          Runtime.note := Some "Reset & share";
                          Runtime.snapshot :=
                            Some {| Runtime.snap_kmBy := Runtime.kmBy s;
                                    Runtime.snap_pricePerKm := Runtime.pricePerKm s;
                                    Runtime.snap_totalKm :=
                                      Runtime.sum (Runtime.get "Amit" (Runtime.kmBy s))
                                                  (Runtime.get "Ori" (Runtime.kmBy s));
                                    Runtime.snap_totalAmount :=
                                      Runtime.times
                                        (Some (Runtime.sum
                                                 (Runtime.get "Amit" (Runtime.kmBy s))
                                                 (Runtime.get "Ori" (Runtime.kmBy s))))
                                        (Runtime.pricePerKm s) |} |}];
                 Runtime.lastEnteredBy := Runtime.lastEnteredBy s |} |}.
Proof.
  eexists. unfold Runtime.resetAndGetMessage. cbv zeta. apply Runtime_stored.
Qed.

(** C5. On a state with the totals under Amit and John, the sum
    [kmBy.Amit + kmBy.Ori] reads a key that is not there: the snapshot of the
    reset entry holds the totals as they were, NaN as [totalKm] and NaN as
    [totalAmount], and the state returned has zeros under Amit and Ori and
    nothing under John. *)
Theorem Runtime_resetAndGetMessage_snapshot_NaN :
  forall newId now s st,
    Runtime.get "Ori" (Runtime.kmBy s) = None ->
    exists r e snap,
      fst (Runtime.resetAndGetMessage Store addEntry saveAppState
             formatCurrency toLocaleString newId now s st) = Ok r
      /\ Runtime.history (Runtime.newState r) = Runtime.history s ++ [e]
      /\ Runtime.type e = reset
      /\ Runtime.snapshot e = Some snap
      /\ Runtime.snap_kmBy snap = Runtime.kmBy s
      /\ Runtime.snap_pricePerKm snap = Runtime.pricePerKm s
      /\ Runtime.snap_totalKm snap = Runtime.NaN
      /\ Runtime.snap_totalAmount snap = Runtime.NotANumber
      /\ Runtime.kmBy (Runtime.newState r)
         = [("Amit", Runtime.Int 0); ("Ori", Runtime.Int 0)]
      /\ Runtime.get "John" (Runtime.kmBy (Runtime.newState r)) = None.
Proof.
  intros newId now s st HOri.
  destruct (Runtime_resetAndGetMessage_succeeds newId now s st) as (msg & Hrun).
  eexists; eexists; eexists. split; [exact Hrun|].
  simpl. rewrite HOri.
  assert (Hsum : Runtime.sum (Runtime.get "Amit" (Runtime.kmBy s)) None = Runtime.NaN)
    by (destruct (Runtime.get "Amit" (Runtime.kmBy s)) as [[z|]|]; reflexivity).
  rewrite Hsum. repeat split.
Qed.

(** C9. The message of a reset on a state with 180 km under Amit and 47 km
    under John, at odometer 1227: the line of the second user is the line of
    Ori and prints [undefined] and the amount of NaN, the total is NaN, and
    the 47 km of John appear on no line. The lines are joined by line
    feeds. *)
Theorem Runtime_resetAndGetMessage_message_undefined :
  forall newId st,
    exists r,
      fst (Runtime.resetAndGetMessage Store addEntry saveAppState
             formatCurrency toLocaleString newId 5 Runtime.loaded_totals st) = Ok r
      /\ Runtime.message r
         = String.concat (String "010"%char EmptyString)
             [ ("Fuel split reset (" ++ toLocaleString 5 ++ ")")%string;
               ("Price per km: " ++ formatCurrency (Runtime.Fin (1 # 2)))%string;
               "Totals since last reset:";
               ("- Amit: 180 km => "
                  ++ formatCurrency (Runtime.Fin (inject_Z 180 * (1 # 2))))%string;
               ("- Ori: undefined km => " ++ formatCurrency Runtime.NotANumber)%string;
               ("Total: NaN km => " ++ formatCurrency Runtime.NotANumber)%string;
               "Odometer: 1227 km";
               "Please settle accordingly." ].
Proof.
  intros newId st.
  eexists. split.
  - unfold Runtime.resetAndGetMessage. cbv zeta. apply Runtime_stored.
  - reflexivity.
Qed.

(** On the names Amit and Ori and a state with the totals under those two
    keys, a reset is the reset of the actions above: the same message, and
    the same state as the object it is at run time. *)
Lemma Runtime_resetAndGetMessage_agrees newId now s st db :
  fst (Runtime.resetAndGetMessage Store addEntry saveAppState
         formatCurrency toLocaleString newId now (runtimeState s) st)
  = match fst (resetAndGetMessage (fun q => formatCurrency (Runtime.Fin q))
                 toLocaleString newId now s db) with
    | Ok r => Ok {| Runtime.message := message r;
                    Runtime.newState := runtimeState (newState r) |}
    | Err e => Err e
    end.
Proof.
  unfold Runtime.resetAndGetMessage, resetAndGetMessage. cbv zeta.
  rewrite Runtime_stored. simpl.
  unfold runtimeState. simpl. rewrite map_app. simpl.
  destruct (kmBy s) as [a o], (lastOdometer s); reflexivity.
Qed.

End RuntimeFormatting.

(** On the names Amit and Ori and a state with the totals under those two
    keys, a reading is recorded as by the action above. *)
Lemma Runtime_addMileageEntry_agrees newId now u r s st db :
  fst (Runtime.addMileageEntry Store addEntry saveAppState
         newId now (userName u) r (runtimeState s) st)
  = match fst (addMileageEntry newId now u r s db) with
    | Ok s' => Ok (runtimeState s')
    | Err e => Err e
    end.
Proof.
  unfold Runtime.addMileageEntry, addMileageEntry.
  rewrite !OTHER_table_lookup.
  change (Runtime.lastOdometer (runtimeState s)) with (lastOdometer s).
  destruct (lastOdometer s) as [last|].
  - destruct (r - last <? 0); [reflexivity|].
    destruct (r - last =? 0).
    + unfold Runtime.bind at 1, Runtime.ret at 1. cbv zeta. cbn [fst snd].
      rewrite Runtime_stored.
      unfold runtimeState. cbn. rewrite map_app. reflexivity.
    + unfold Runtime.bind at 1, Runtime.ret at 1. cbv zeta. cbn [fst snd].
      rewrite Runtime_stored.
      unfold runtimeState. cbn. rewrite map_app.
      destruct u, (kmBy s) as [a o]; reflexivity.
  - unfold Runtime.bind at 1, Runtime.ret at 1. cbv zeta. cbn [fst snd].
    rewrite Runtime_stored.
    unfold runtimeState. cbn. rewrite map_app. reflexivity.
Qed.

(** X27. [updateSettings] does not reject NaN, which is neither [<= 0]
    nor [< 0]: it saves NaN as the price, and as the starting odometer when
    no reading has been recorded. *)
Theorem Runtime_updateSettings_accepts_NaN :
  forall s st,
    exists s',
      fst (Runtime.updateSettings Store saveAppState
             Runtime.NotANumber Runtime.NaN s st) = Ok s'
      /\ Runtime.pricePerKm s' = Runtime.NotANumber
      /\ Runtime.startingOdometer s'
         = match Runtime.lastOdometer s with
           | None => Runtime.NaN
           | Some _ => Runtime.startingOdometer s
           end
      /\ Runtime.lastOdometer s' = Runtime.lastOdometer s
      /\ Runtime.kmBy s' = Runtime.kmBy s
      /\ Runtime.history s' = Runtime.history s.
Proof.
  intros s st. eexists. split.
  - unfold Runtime.updateSettings. simpl. apply Runtime_saved.
  - simpl. repeat split.
Qed.

End RuntimeProperties.

(** The theorems above on the store that takes and keeps every call. *)
Lemma Runtime_addMileageEntry_credits_nobody_witness :
  Runtime.lastOdometer Runtime.loaded_1000 = Some 1000
  /\ 0 < 1180 - 1000
  /\ (exists s' e,
        fst (Runtime.addMileageEntry (list Runtime.Call)
               Runtime.record_addEntry Runtime.record_saveAppState
               "2-bbbbbb" 2 "John" 1180 Runtime.loaded_1000 []) = Ok s'
        /\ Runtime.history s' = Runtime.history Runtime.loaded_1000 ++ [e]
        /\ Runtime.type e = entry
        /\ Runtime.enteredBy e = Some "John"
        /\ Runtime.deltaKm e = Some (1180 - 1000)
        /\ Runtime.attributedTo e = None
        /\ (forall name, name <> "undefined" ->
              Runtime.get name (Runtime.kmBy s')
              = Runtime.get name (Runtime.kmBy Runtime.loaded_1000)))
  /\ (Runtime.get "Ori" (Runtime.kmBy Runtime.loaded_1000) = None ->
      exists s' e,
        fst (Runtime.addMileageEntry (list Runtime.Call)
               Runtime.record_addEntry Runtime.record_saveAppState
               "2-bbbbbb" 2 "Amit" 1180 Runtime.loaded_1000 []) = Ok s'
        /\ Runtime.history s' = Runtime.history Runtime.loaded_1000 ++ [e]
        /\ Runtime.type e = entry
        /\ Runtime.enteredBy e = Some "Amit"
        /\ Runtime.deltaKm e = Some (1180 - 1000)
        /\ Runtime.attributedTo e = Some "Ori"
        /\ Runtime.get "Ori" (Runtime.kmBy s') = Some Runtime.NaN
        /\ (forall name, name <> "Ori" ->
              Runtime.get name (Runtime.kmBy s')
              = Runtime.get name (Runtime.kmBy Runtime.loaded_1000))).
Proof.
  split; [reflexivity|]. split; [reflexivity|].
  exact (Runtime_addMileageEntry_credits_nobody (list Runtime.Call)
           Runtime.record_addEntry Runtime.record_saveAppState
           (fun _ _ => eq_refl) (fun _ _ => eq_refl)
           "2-bbbbbb" 2 1180 Runtime.loaded_1000 [] 1000 eq_refl eq_refl).
Defined.

Lemma Runtime_totals_miss_deltas_witness :
  exists s2,
    fst (Runtime.addMileageEntry (list Runtime.Call)
           Runtime.record_addEntry Runtime.record_saveAppState
           "1-aaaaaa" 1 "Amit" 1000 Runtime.loadedState []) = Ok Runtime.loaded_1000
    /\ fst (Runtime.addMileageEntry (list Runtime.Call)
              Runtime.record_addEntry Runtime.record_saveAppState
              "2-bbbbbb" 2 "John" 1180 Runtime.loaded_1000 []) = Ok s2
    /\ existsb Runtime.isReset (Runtime.history s2) = false
    /\ Runtime.sumDeltaKm (Runtime.history s2) = 180
    /\ Runtime.get "Amit" (Runtime.kmBy s2) = Some (Runtime.Int 0)
    /\ Runtime.get "John" (Runtime.kmBy s2) = Some (Runtime.Int 0)
    /\ Runtime.get "Ori" (Runtime.kmBy s2) = None
    /\ Runtime.sum (Runtime.get "Amit" (Runtime.kmBy s2))
                   (Runtime.get "John" (Runtime.kmBy s2)) = Runtime.Int 0
    /\ Runtime.sum (Runtime.get "Amit" (Runtime.kmBy s2))
                   (Runtime.get "Ori" (Runtime.kmBy s2)) = Runtime.NaN.
Proof.
  exact (Runtime_totals_miss_deltas (list Runtime.Call)
           Runtime.record_addEntry Runtime.record_saveAppState
           (fun _ _ => eq_refl) (fun _ _ => eq_refl) [] []).
Defined.

Lemma Runtime_resetAndGetMessage_snapshot_NaN_witness :
  Runtime.get "Ori" (Runtime.kmBy Runtime.loaded_totals) = None
  /\ exists r e snap,
      fst (Runtime.resetAndGetMessage (list Runtime.Call)
             Runtime.record_addEntry Runtime.record_saveAppState
             (fun _ => "AMOUNT") (fun _ => "DATE")
             "5-eeeeee" 5 Runtime.loaded_totals []) = Ok r
      /\ Runtime.history (Runtime.newState r)
         = Runtime.history Runtime.loaded_totals ++ [e]
      /\ Runtime.type e = reset
      /\ Runtime.snapshot e = Some snap
      /\ Runtime.snap_kmBy snap = Runtime.kmBy Runtime.loaded_totals
      /\ Runtime.snap_pricePerKm snap = Runtime.pricePerKm Runtime.loaded_totals
      /\ Runtime.snap_totalKm snap = Runtime.NaN
      /\ Runtime.snap_totalAmount snap = Runtime.NotANumber
      /\ Runtime.kmBy (Runtime.newState r)
         = [("Amit", Runtime.Int 0); ("Ori", Runtime.Int 0)]
      /\ Runtime.get "John" (Runtime.kmBy (Runtime.newState r)) = None.
Proof.
  split; [reflexivity|].
  exact (Runtime_resetAndGetMessage_snapshot_NaN (list Runtime.Call)
           Runtime.record_addEntry Runtime.record_saveAppState
           (fun _ _ => eq_refl) (fun _ _ => eq_refl)
           (fun _ => "AMOUNT") (fun _ => "DATE")
           "5-eeeeee" 5 Runtime.loaded_totals [] eq_refl).
Defined.

Lemma Runtime_resetAndGetMessage_message_undefined_witness :
  exists r,
    fst (Runtime.resetAndGetMessage (list Runtime.Call)
           Runtime.record_addEntry Runtime.record_saveAppState
           (fun a => match a with
                     | Runtime.Fin _ => "AMOUNT"
                     | Runtime.NotANumber => "NaN"
                     end)
           (fun _ => "DATE")
           "5-eeeeee" 5 Runtime.loaded_totals []) = Ok r
    /\ Runtime.message r
       = String.concat (String "010"%char EmptyString)
           [ "Fuel split reset (DATE)";
             "Price per km: AMOUNT";
             "Totals since last reset:";
             "- Amit: 180 km => AMOUNT";
             "- Ori: undefined km => NaN";
             "Total: NaN km => NaN";
             "Odometer: 1227 km";
             "Please settle accordingly." ].
Proof.
  exact (Runtime_resetAndGetMessage_message_undefined (list Runtime.Call)
           Runtime.record_addEntry Runtime.record_saveAppState
           (fun _ _ => eq_refl) (fun _ _ => eq_refl)
           (fun a => match a with
                     | Runtime.Fin _ => "AMOUNT"
                     | Runtime.NotANumber => "NaN"
                     end)
           (fun _ => "DATE")
           "5-eeeeee" []).
Defined.

Lemma Runtime_updateSettings_accepts_NaN_witness :
  exists s',
    fst (Runtime.updateSettings (list Runtime.Call) Runtime.record_saveAppState
           Runtime.NotANumber Runtime.NaN Runtime.loadedState []) = Ok s'
    /\ Runtime.pricePerKm s' = Runtime.NotANumber
    /\ Runtime.startingOdometer s'
       = match Runtime.lastOdometer Runtime.loadedState with
         | None => Runtime.NaN
         | Some _ => Runtime.startingOdometer Runtime.loadedState
         end
    /\ Runtime.lastOdometer s' = Runtime.lastOdometer Runtime.loadedState
    /\ Runtime.kmBy s' = Runtime.kmBy Runtime.loadedState
    /\ Runtime.history s' = Runtime.history Runtime.loadedState.
Proof.
  exact (Runtime_updateSettings_accepts_NaN (list Runtime.Call)
           Runtime.record_saveAppState (fun _ _ => eq_refl)
           Runtime.loadedState []).
Defined.

(** * Further properties *)

(** ** The table of history rows *)

Lemma hasRow_In (i : string) (rows : list EntryRow) :
  hasRow i rows = true <-> In i (map row_id rows).
Proof.
  unfold hasRow. rewrite existsb_exists. split.
  - intros (r & Hr & Heq). apply String.eqb_eq in Heq. subst i.
    apply in_map; exact Hr.
  - intros Hin. apply in_map_iff in Hin as (r & Heq & Hr).
    exists r. split; [exact Hr|]. apply String.eqb_eq; exact Heq.
Qed.

Lemma hasRow_false (i : string) (rows : list EntryRow) :
  hasRow i rows = false <-> ~ In i (map row_id rows).
Proof.
  rewrite <- hasRow_In. destruct (hasRow i rows); split; congruence.
Qed.

Lemma hasRow_app (i : string) (rows rows' : list EntryRow) :
  hasRow i (rows ++ rows') = hasRow i rows || hasRow i rows'.
Proof. unfold hasRow. apply existsb_app. Qed.

(** X1. The identifier is a key of the table: [addHistoryEntry] keeps the
    identifiers of the rows pairwise distinct, and leaves a row with the
    identifier of the entry in the table. *)
Theorem addHistoryEntry_keeps_key :
  forall e db,
    NoDup (map row_id (fuel_split_entries db)) ->
    NoDup (map row_id (fuel_split_entries (snd (addHistoryEntry e db))))
    /\ hasRow (id e) (fuel_split_entries (snd (addHistoryEntry e db))) = true.
Proof.
  intros e db Hnd. rewrite addHistoryEntry_table.
  destruct (hasRow (id e) (fuel_split_entries db)) eqn:Hhas.
  - split; assumption.
  - split.
    + rewrite map_app. apply NoDup_app; [exact Hnd| |].
      * simpl. constructor; [simpl; tauto|constructor].
      * simpl. intros a Ha [<-|[]]. apply hasRow_false in Hhas. exact (Hhas Ha).
    + rewrite hasRow_app. simpl. rewrite String.eqb_refl. apply orb_true_r.
Qed.

Lemma addHistoryEntry_keeps_key_witness :
  NoDup (map row_id (fuel_split_entries database_0))
  /\ NoDup (map row_id (fuel_split_entries (snd (addHistoryEntry entry_1180 database_0))))
  /\ hasRow (id entry_1180)
       (fuel_split_entries (snd (addHistoryEntry entry_1180 database_0))) = true.
Proof.
  assert (Hnd : NoDup (map row_id (fuel_split_entries database_0)))
    by (simpl; repeat constructor; simpl; tauto).
  split; [exact Hnd|].
  exact (addHistoryEntry_keeps_key entry_1180 database_0 Hnd).
Defined.

Lemma addHistoryEntry_present e db :
  hasRow (id e) (fuel_split_entries db) = true -> snd (addHistoryEntry e db) = db.
Proof. intros Hhas. unfold addHistoryEntry; simpl. rewrite Hhas. reflexivity. Qed.

(** X2. Insert if absent: once an entry is stored, storing any entry under
    the same identifier, the same entry again or another one, changes
    nothing. The first write wins. *)
Theorem addHistoryEntry_first_write_wins :
  forall e e' db,
    id e' = id e ->
    snd (addHistoryEntry e' (snd (addHistoryEntry e db))) = snd (addHistoryEntry e db).
Proof.
  intros e e' db Hid.
  pose proof (addHistoryEntry_table e db) as Htab.
  assert (Hhas : hasRow (id e') (fuel_split_entries (snd (addHistoryEntry e db))) = true).
  { rewrite Hid, Htab.
    destruct (hasRow (id e) (fuel_split_entries db)) eqn:Hh; [exact Hh|].
    rewrite hasRow_app. simpl. rewrite String.eqb_refl. apply orb_true_r. }
  apply addHistoryEntry_present. exact Hhas.
Qed.

Lemma addHistoryEntry_first_write_wins_witness :
  id entry_no_change = id entry_empty_note
  /\ snd (addHistoryEntry entry_no_change (snd (addHistoryEntry entry_empty_note database_0)))
     = snd (addHistoryEntry entry_empty_note database_0).
Proof.
  split; [reflexivity|].
  exact (addHistoryEntry_first_write_wins entry_empty_note entry_no_change
           database_0 eq_refl).
Defined.

Lemma removeHistoryEntry_table i db :
  fuel_split_entries (snd (removeHistoryEntry i db))
  = filter (fun r => negb (String.eqb (row_id r) i)) (fuel_split_entries db).
Proof. reflexivity. Qed.

Lemma filter_row_id_fresh (i : string) (rows : list EntryRow) :
  ~ In i (map row_id rows) ->
  filter (fun r => negb (String.eqb (row_id r) i)) rows = rows.
Proof.
  induction rows as [|y rows IH]; simpl; [reflexivity|].
  intros Hnot. destruct (String.eqb (row_id y) i) eqn:Hy; simpl.
  - apply String.eqb_eq in Hy. contradiction Hnot. left; exact Hy.
  - rewrite IH; [reflexivity|]. intros Hin. apply Hnot. right; exact Hin.
Qed.

(** X3. [removeHistoryEntry] leaves no row with the identifier and keeps
    every other row, in the order of the table; on an identifier the table
    does not have it changes nothing. *)
Theorem removeHistoryEntry_removes_id :
  forall i db,
    hasRow i (fuel_split_entries (snd (removeHistoryEntry i db))) = false
    /\ (forall r, row_id r <> i ->
          (In r (fuel_split_entries (snd (removeHistoryEntry i db)))
           <-> In r (fuel_split_entries db)))
    /\ (List.length (fuel_split_entries (snd (removeHistoryEntry i db)))
        + List.length (filter (fun r => String.eqb (row_id r) i) (fuel_split_entries db))
        = List.length (fuel_split_entries db))%nat
    /\ (hasRow i (fuel_split_entries db) = false ->
          snd (removeHistoryEntry i db) = db).
Proof.
  intros i db. rewrite removeHistoryEntry_table. split; [|split; [|split]].
  - apply hasRow_false. intros Hin.
    apply in_map_iff in Hin as (r & Heq & Hr).
    apply filter_In in Hr as [_ Hr]. subst i.
    rewrite String.eqb_refl in Hr. discriminate.
  - intros r Hne. rewrite filter_In. split; [tauto|].
    intros Hr. split; [exact Hr|].
    destruct (String.eqb (row_id r) i) eqn:Heq; [|reflexivity].
    apply String.eqb_eq in Heq. contradiction.
  - induction (fuel_split_entries db) as [|y rows IH]; simpl; [reflexivity|].
    destruct (String.eqb (row_id y) i); simpl; lia.
  - intros Hhas. apply hasRow_false in Hhas.
    unfold removeHistoryEntry; simpl.
    rewrite (filter_row_id_fresh i _ Hhas). destruct db; reflexivity.
Qed.

Lemma removeHistoryEntry_removes_id_witness :
  hasRow "9-zzzzzz" (fuel_split_entries database_0) = false
  /\ snd (removeHistoryEntry "9-zzzzzz" database_0) = database_0.
Proof.
  split; [reflexivity|].
  exact (proj2 (proj2 (proj2 (removeHistoryEntry_removes_id "9-zzzzzz" database_0)))
           eq_refl).
Defined.

(** X4. Round trip of the table: storing an entry whose identifier the
    table does not have and removing it by that identifier gives back the
    store as it was. *)
Theorem removeHistoryEntry_after_addHistoryEntry :
  forall e db,
    hasRow (id e) (fuel_split_entries db) = false ->
    snd (removeHistoryEntry (id e) (snd (addHistoryEntry e db))) = db.
Proof.
  intros e db Hhas. unfold removeHistoryEntry, addHistoryEntry; simpl.
  rewrite Hhas; simpl. rewrite filter_app; simpl.
  rewrite String.eqb_refl; simpl.
  apply hasRow_false in Hhas.
  rewrite (filter_row_id_fresh (id e) _ Hhas), app_nil_r.
  destruct db; reflexivity.
Qed.

Lemma removeHistoryEntry_after_addHistoryEntry_witness :
  hasRow (id entry_1180) (fuel_split_entries database_0) = false
  /\ snd (removeHistoryEntry (id entry_1180) (snd (addHistoryEntry entry_1180 database_0)))
     = database_0.
Proof.
  split; [reflexivity|].
  exact (removeHistoryEntry_after_addHistoryEntry entry_1180 database_0 eq_refl).
Defined.

Lemma orNull_number_idempotent x : orNull_number (orNull_number x) = orNull_number x.
Proof.
  destruct x as [n|]; [|reflexivity]. simpl.
  destruct (n =? 0) eqn:Hn; [reflexivity|]. simpl. rewrite Hn. reflexivity.
Qed.

Lemma orNull_string_idempotent x : orNull_string (orNull_string x) = orNull_string x.
Proof.
  destruct x as [s0|]; [|reflexivity]. simpl.
  destruct (String.eqb s0 "") eqn:Hs; [reflexivity|]. simpl. rewrite Hs. reflexivity.
Qed.

(** X5. What is read back from the store is stable: an entry built from a
    row that [addHistoryEntry] wrote is stored again as that same row, and
    read again as that same entry. Zeros and empty notes are lost on the
    first write only. *)
Theorem entryRow_rowEntry_stable :
  forall e,
    entryRow (rowEntry (entryRow e)) = entryRow e
    /\ rowEntry (entryRow (rowEntry (entryRow e))) = rowEntry (entryRow e).
Proof.
  intros e.
  assert (Hrow : entryRow (rowEntry (entryRow e)) = entryRow e).
  { unfold entryRow, rowEntry; simpl.
    rewrite !orNull_number_idempotent, orNull_string_idempotent. reflexivity. }
  split; [exact Hrow|]. rewrite Hrow. reflexivity.
Qed.

(** ** Runs of the local page *)

Lemma lastReading_In (h : list Entry) (l : Z) :
  lastReading h = Some l -> exists e, In e h /\ reading e = Some l.
Proof.
  unfold lastReading. destruct (findLast hasReading h) as [e|] eqn:He; [|discriminate].
  intros Hl. destruct (findLast_Some _ _ _ He) as (l1 & l2 & -> & _ & _).
  exists e. split; [apply in_or_app; right; left; reflexivity|exact Hl].
Qed.

(** What a call of the local page's [addMileage] does: nothing, or the
    operation [addMileageEntry] on a reading that is not negative. *)
Lemma LocalPage_addMileage_outcome newId now u r s :
  LocalPage.addMileage newId now (Some u) r s = s
  \/ (0 <= r
      /\ exists e s1,
          (forall db,
             addMileageEntry newId now u r s db
             = (Ok (withHistory s1 (history s ++ [e])), stored e s1 db))
          /\ LocalPage.addMileage newId now (Some u) r s
             = withHistory s1 (history s ++ [e])
          /\ id e = newId
          /\ reading e = Some r
          /\ lastOdometer s1 = Some r).
Proof.
  unfold LocalPage.addMileage.
  destruct (r <? 0) eqn:Hr0; [left; reflexivity|].
  apply Z.ltb_ge in Hr0.
  destruct (lastOdometer s) as [last|] eqn:Hlast.
  - destruct (r - last <? 0) eqn:Hneg; [left; reflexivity|].
    apply Z.ltb_ge in Hneg.
    destruct (r - last =? 0) eqn:Hz.
    + apply Z.eqb_eq in Hz. assert (r = last) by lia. subst r.
      right. split; [exact Hr0|].
      eexists; eexists. split.
      * intros db. exact (addMileageEntry_zero newId now u s db last Hlast).
      * simpl. repeat split.
    + apply Z.eqb_neq in Hz.
      right. split; [exact Hr0|].
      eexists; eexists. split.
      * intros db.
        exact (addMileageEntry_positive newId now u r s db last Hlast ltac:(lia)).
      * simpl. repeat split.
  - right. split; [exact Hr0|].
    eexists; eexists. split.
    + intros db. exact (addMileageEntry_first newId now u r s db Hlast).
    + simpl. repeat split.
Qed.

(** The local page's [undoLast] on a history with distinct identifiers:
    nothing, or the operation [undoLastEntry]. *)
Lemma LocalPage_undoLast_outcome s :
  NoDup (map id (history s)) ->
  LocalPage.undoLast s = s
  \/ exists x,
       findLast isEntry (history s) = Some x
       /\ LocalPage.undoLast s = undoStateOf s x.
Proof.
  intros Hnd. unfold LocalPage.undoLast.
  destruct (findLast isEntry (history s)) as [x|] eqn:Hx; [|left; reflexivity].
  right. exists x. split; [reflexivity|].
  destruct (findLast_Some _ _ _ Hx) as (l1 & l2 & Hh & _ & _).
  unfold undoStateOf, lastReading.
  rewrite Hh in Hnd |- *.
  rewrite (removeFirstWithId_NoDup l1 l2 x Hnd), (filter_id_NoDup l1 l2 x Hnd).
  reflexivity.
Qed.

Lemma LocalPage_saveSettings_outcome p o s :
  LocalPage.saveSettings p o s = s
  \/ exists s1,
       (forall db, updateSettings p o s db = (Ok s1, snd (saveAppState s1 db)))
       /\ LocalPage.saveSettings p o s = s1
       /\ history s1 = history s
       /\ kmBy s1 = kmBy s
       /\ lastOdometer s1 = lastOdometer s.
Proof.
  unfold LocalPage.saveSettings, updateSettings.
  destruct (Qle_bool p 0); [left; reflexivity|].
  destruct (o <? 0); [left; reflexivity|].
  right. eexists. split; [intros db; reflexivity|]. simpl. repeat split.
Qed.

(** A call of a handler of the local page is an operation of the ledger, or
    leaves the ledger as it was. *)
Lemma localStep_step s s' :
  NoDup (map id (history s)) -> localStep s s' -> s' = s \/ step s s'.
Proof.
  intros Hnd Hstep.
  destruct Hstep as [newId now u r s Hfresh|s|fc tl newId now s Hfresh|p o s].
  - destruct (LocalPage_addMileage_outcome newId now u r s)
      as [Hsame|(_ & e & s1 & Hrun & Hout & _)]; [left; exact Hsame|].
    right. rewrite Hout.
    exact (step_addMileageEntry _ _ _ _ _ _ _ _ Hfresh (Hrun initialDatabase)).
  - destruct (LocalPage_undoLast_outcome s Hnd) as [Hsame|(x & Hx & Hout)];
      [left; exact Hsame|].
    right. rewrite Hout.
    exact (step_undoLastEntry _ _ _ _ (undoLastEntry_found s initialDatabase x Hx)).
  - right.
    destruct (resetAndGetMessage_succeeds fc tl newId now s initialDatabase)
      as (msg & Hrun).
    exact (step_resetAndGetMessage fc tl newId now s initialDatabase _ _ Hfresh Hrun).
  - destruct (LocalPage_saveSettings_outcome p o s)
      as [Hsame|(s1 & Hrun & Hout & _)]; [left; exact Hsame|].
    right. rewrite Hout.
    exact (step_updateSettings _ _ _ _ _ _ (Hrun initialDatabase)).
Qed.

(** What the local page reaches, the actions reach. *)
Lemma localReachable_reachable s : localReachable s -> reachable s.
Proof.
  induction 1 as [|s s' _ IH Hstep]; [exact reachable_initial|].
  destruct (localStep_step s s' (consistent_ids s (reachable_consistent s IH)) Hstep)
    as [->|Hs]; [exact IH|].
  exact (reachable_step s s' IH Hs).
Qed.

Lemma worked_ledger_localReachable : localReachable state_1227.
Proof.
  apply (localReachable_step state_1180).
  - apply (localReachable_step state_1000).
    + apply (localReachable_step initialState); [exact localReachable_initial|].
      exact (localStep_addMileage "1-aaaaaa" 1 Amit 1000 initialState
               (fun H : In "1-aaaaaa" (map id (history initialState)) => H)).
    + refine (localStep_addMileage "2-bbbbbb" 2 Ori 1180 state_1000 _).
      simpl. intros [H|[]]. discriminate H.
  - refine (localStep_addMileage "3-cccccc" 3 Amit 1227 state_1180 _).
    simpl. intros [H|[H|[]]]; discriminate H.
Defined.

Lemma localReachable_readings s :
  localReachable s ->
  (forall l, lastOdometer s = Some l -> 0 <= l)
  /\ (forall e r, In e (history s) -> reading e = Some r -> 0 <= r).
Proof.
  induction 1 as [|s s' Hreach IH Hstep].
  - split; [discriminate|]. intros e r [].
  - destruct IH as (Hlast & Hread).
    pose proof (consistent_ids s (reachable_consistent s (localReachable_reachable s Hreach)))
      as Hnd.
    destruct Hstep as [newId now u r s Hfresh|s|fc tl newId now s Hfresh|p o s].
    + destruct (LocalPage_addMileage_outcome newId now u r s)
        as [Hsame|(Hr & e & s1 & _ & Hout & _ & He & Hl1)].
      * rewrite Hsame. split; assumption.
      * rewrite Hout. simpl. rewrite Hl1.
        split; [intros l Hl; injection Hl as <-; exact Hr|].
        intros y ry Hy Hry. apply in_app_or in Hy as [Hy|[<-|[]]].
        -- exact (Hread y ry Hy Hry).
        -- rewrite He in Hry. injection Hry as <-. exact Hr.
    + destruct (LocalPage_undoLast_outcome s Hnd) as [Hsame|(x & _ & Hout)].
      * rewrite Hsame. split; assumption.
      * rewrite Hout.
        assert (Hsub : forall y ry,
                  In y (history (undoStateOf s x)) -> reading y = Some ry -> 0 <= ry).
        { intros y ry Hy Hry. simpl in Hy. apply filter_In in Hy as [Hy _].
          exact (Hread y ry Hy Hry). }
        split; [|exact Hsub].
        intros l Hl.
        change (lastOdometer (undoStateOf s x))
          with (lastReading (history (undoStateOf s x))) in Hl.
        destruct (lastReading_In _ _ Hl) as (y & Hy & Hry).
        exact (Hsub y l Hy Hry).
    + simpl. split; [exact Hlast|].
      intros y ry Hy Hry. apply in_app_or in Hy as [Hy|[<-|[]]].
      * exact (Hread y ry Hy Hry).
      * discriminate Hry.
    + destruct (LocalPage_saveSettings_outcome p o s)
        as [Hsame|(s1 & _ & Hout & Hh & _ & Hl1)].
      * rewrite Hsame. split; assumption.
      * rewrite Hout, Hl1, Hh. split; assumption.
Qed.

(** X9. The local page keeps the readings and the totals within bounds.
    After any run of its handlers from a new installation the last odometer
    and every reading of the history are at least 0, and so are the two
    totals. The check on the reading is the page's: [addMileageEntry]
    itself takes a negative first reading. *)
Theorem localReachable_withinBounds :
  forall s, localReachable s -> withinBounds s.
Proof.
  intros s Hreach.
  destruct (localReachable_readings s Hreach) as (Hlast & Hread).
  split; [exact Hlast|]. split; [exact Hread|].
  apply (reachable_undo_conditions s (localReachable_reachable s Hreach)).
Qed.

Lemma localReachable_withinBounds_witness :
  localReachable state_1227 /\ withinBounds state_1227.
Proof.
  split; [exact worked_ledger_localReachable|].
  exact (localReachable_withinBounds state_1227 worked_ledger_localReachable).
Defined.

Example addMileageEntry_takes_negative_first_reading :
  exists s' db',
    addMileageEntry "1-aaaaaa" 1 Amit (-5) initialState initialDatabase = (Ok s', db')
    /\ lastOdometer s' = Some (-5)
    /\ startingOdometer s' = -5.
Proof. eexists; eexists. split; [cbv; reflexivity|]. split; reflexivity. Qed.

(** ** Readings along the history of a reachable state *)

Lemma lastReading_cons (e : Entry) (h : list Entry) :
  lastReading (e :: h)
  = match lastReading h with
    | Some r => Some r
    | None => reading e
    end.
Proof.
  unfold lastReading; simpl.
  destruct (findLast hasReading h) as [y|] eqn:Hy.
  - destruct (findLast_Some _ _ _ Hy) as (_ & _ & _ & Hp & _).
    unfold hasReading in Hp. destruct (reading y); [reflexivity|discriminate].
  - unfold hasReading. destruct (reading e) eqn:He; [exact He|reflexivity].
Qed.

Lemma lastFrom_cons (a : option Z) (e : Entry) (h : list Entry) :
  lastFrom a (e :: h)
  = lastFrom (match reading e with Some r => Some r | None => a end) h.
Proof.
  unfold lastFrom. rewrite lastReading_cons.
  destruct (lastReading h); [reflexivity|]. destruct (reading e); reflexivity.
Qed.

Lemma lastFrom_None (h : list Entry) : lastFrom None h = lastReading h.
Proof. unfold lastFrom. destruct (lastReading h); reflexivity. Qed.

Lemma chainedFrom_app (a : option Z) (l1 l2 : list Entry) :
  chainedFrom a (l1 ++ l2) <-> chainedFrom a l1 /\ chainedFrom (lastFrom a l1) l2.
Proof.
  revert a. induction l1 as [|e l1 IH]; intros a; simpl.
  - unfold lastFrom; simpl. tauto.
  - rewrite IH, lastFrom_cons. tauto.
Qed.

(** Records that follow a reading and are not entries are resets: they
    chain from anywhere and carry no reading. *)
Lemma chainedFrom_no_entry (r : Z) (l : list Entry) :
  chainedFrom (Some r) l ->
  (forall y, In y l -> isEntry y = false) ->
  (forall b, chainedFrom b l) /\ lastReading l = None.
Proof.
  induction l as [|y l IH]; simpl; intros Hc Hno.
  - split; [intros b; exact I|reflexivity].
  - destruct Hc as [Hy Hrest].
    pose proof (Hno y (or_introl eq_refl)) as Hey.
    unfold recordOk in Hy. unfold isEntry in Hey.
    destruct (type y) eqn:Hty; simpl in Hey; try discriminate.
    + destruct Hy as [Hnone _]. discriminate.
    + rewrite Hy in Hrest.
      destruct (IH Hrest (fun z Hz => Hno z (or_intror Hz))) as [Hall Hlast].
      split.
      * intros b. split; [unfold recordOk; rewrite Hty; exact Hy|].
        rewrite Hy. apply Hall.
      * rewrite lastReading_cons, Hlast. exact Hy.
Qed.

Lemma lastReading_app (l1 l2 : list Entry) :
  lastReading (l1 ++ l2) = lastFrom (lastReading l1) l2.
Proof.
  induction l1 as [|e l1 IH]; simpl.
  - unfold lastFrom. destruct (lastReading l2); reflexivity.
  - rewrite !lastReading_cons, IH. unfold lastFrom.
    destruct (lastReading l2); [reflexivity|]. reflexivity.
Qed.

(** What undo finds in a chained history with distinct identifiers: the
    record it removes is the last to carry a reading, and the reading before
    it is that reading less its [deltaKm]. *)
Lemma chained_undo (h : list Entry) (x : Entry) :
  chainedFrom None h ->
  NoDup (map id h) ->
  findLast isEntry h = Some x ->
  exists l1 l2 r d,
    h = l1 ++ x :: l2
    /\ filter (fun e => negb (String.eqb (id e) (id x))) h = l1 ++ l2
    /\ reading x = Some r /\ deltaKm x = Some d /\ 0 <= d
    /\ lastReading h = Some r
    /\ lastReading (l1 ++ l2) = Some (r - d)
    /\ chainedFrom None (l1 ++ l2).
Proof.
  intros Hc Hnd Hx.
  destruct (findLast_Some _ _ _ Hx) as (l1 & l2 & Hh & Hpx & Hl2). subst h.
  apply chainedFrom_app in Hc as [Hc1 Hc2]. simpl in Hc2. destruct Hc2 as [Hok Hc2].
  unfold recordOk in Hok. rewrite (proj1 (isEntry_type x) Hpx) in Hok.
  destruct Hok as (l & r & Hl & Hr & Hle & Hd).
  rewrite Hr in Hc2.
  destruct (chainedFrom_no_entry r l2 Hc2 Hl2) as [Hall Hnone].
  rewrite lastFrom_None in Hl.
  exists l1, l2, r, (r - l).
  split; [reflexivity|]. split; [apply filter_id_NoDup; exact Hnd|].
  split; [exact Hr|]. split; [exact Hd|]. split; [lia|].
  split; [|split].
  - rewrite lastReading_app. unfold lastFrom.
    rewrite lastReading_cons, Hnone, Hr. reflexivity.
  - rewrite lastReading_app. unfold lastFrom. rewrite Hnone, Hl.
    f_equal; lia.
  - apply chainedFrom_app. split; [exact Hc1|apply Hall].
Qed.

Lemma chainedFrom_snoc (h : list Entry) (e : Entry) :
  chainedFrom None h -> recordOk (lastReading h) e -> chainedFrom None (h ++ [e]).
Proof.
  intros Hc He. apply chainedFrom_app. split; [exact Hc|].
  rewrite lastFrom_None. simpl. split; [exact He|exact I].
Qed.

Lemma reachable_chained s : reachable s -> chainedFrom None (history s).
Proof.
  induction 1 as [|s s' Hs IH Hstep]; [exact I|].
  pose proof (reachable_consistent s Hs) as [Hids _ _ Hodo].
  destruct Hstep as
    [newId now u r s db s' db' Hfresh Hrun
    |s db s' db' Hrun
    |fc tl newId now s db r db' Hfresh Hrun
    |p o s db s' db' Hrun].
  - destruct (lastOdometer s) as [last|] eqn:Hlast.
    + destruct (Z.lt_ge_cases r last) as [Hlt|Hge].
      { rewrite (addMileageEntry_negative newId now u r s db last Hlast Hlt) in Hrun.
        discriminate. }
      destruct (Z.eq_dec r last) as [->|Hne].
      * rewrite (addMileageEntry_zero newId now u s db last Hlast) in Hrun.
        injection Hrun as <- _. simpl. apply chainedFrom_snoc; [exact IH|].
        rewrite <- Hodo. unfold recordOk; simpl.
        exists last, last. repeat split; [lia|f_equal; lia].
      * rewrite (addMileageEntry_positive newId now u r s db last Hlast) in Hrun by lia.
        injection Hrun as <- _. simpl. apply chainedFrom_snoc; [exact IH|].
        rewrite <- Hodo. unfold recordOk; simpl.
        exists last, r. repeat split; lia.
    + rewrite (addMileageEntry_first newId now u r s db Hlast) in Hrun.
      injection Hrun as <- _. simpl. apply chainedFrom_snoc; [exact IH|].
      rewrite <- Hodo. unfold recordOk; simpl. split; [reflexivity|].
      exists r; reflexivity.
  - destruct (findLast isEntry (history s)) as [x|] eqn:Hx;
      [|rewrite (undoLastEntry_nothing s db Hx) in Hrun; discriminate].
    rewrite (undoLastEntry_found s db x Hx) in Hrun. injection Hrun as <- _.
    destruct (chained_undo (history s) x IH Hids Hx)
      as (l1 & l2 & r & d & _ & Hfilter & _ & _ & _ & _ & _ & Hc).
    simpl. rewrite Hfilter. exact Hc.
  - destruct (resetAndGetMessage_succeeds fc tl newId now s db) as (msg & Heq).
    rewrite Heq in Hrun. injection Hrun as <- _. simpl.
    apply chainedFrom_snoc; [exact IH|]. unfold recordOk; simpl. reflexivity.
  - unfold updateSettings in Hrun.
    destruct (Qle_bool p 0); [discriminate|].
    destruct (o <? 0); [discriminate|].
    injection Hrun as <- _. exact IH.
Qed.

Lemma chainedFrom_sorted (a : option Z) (h : list Entry) :
  chainedFrom a h ->
  StronglySorted Z.le
    (match a with
     | Some l => l :: readingsOf h
     | None => readingsOf h
     end).
Proof.
  revert a. induction h as [|e h IH]; intros a; simpl.
  - intros _. destruct a; repeat constructor.
  - intros [Hok Hrest]. specialize (IH _ Hrest).
    unfold recordOk in Hok.
    destruct (reading e) as [r|] eqn:Hr; [|exact IH].
    destruct (type e).
    + destruct Hok as [-> _]. exact IH.
    + destruct Hok as (l & r' & -> & Hr' & Hle & _). injection Hr' as <-.
      constructor; [exact IH|].
      inversion IH as [|? ? _ Hall]; subst. constructor; [exact Hle|].
      eapply Forall_impl; [|exact Hall]. intros z Hz; lia.
    + discriminate.
Qed.

Lemma chainedFrom_bound (a : option Z) (h : list Entry) (l : Z) :
  chainedFrom a h ->
  lastFrom a h = Some l ->
  (forall l0, a = Some l0 -> l0 <= l) /\ Forall (fun r => r <= l) (readingsOf h).
Proof.
  revert a. induction h as [|e h IH]; intros a; simpl.
  - unfold lastFrom; simpl. intros _ ->. split; [|constructor].
    intros l0 Hl0. injection Hl0 as ->. lia.
  - intros [Hok Hrest]. rewrite lastFrom_cons. intros Hlast.
    destruct (IH _ Hrest Hlast) as [Hfrom Hall].
    unfold recordOk in Hok.
    destruct (reading e) as [r|] eqn:Hr; [|split; assumption].
    pose proof (Hfrom r eq_refl) as Hrl.
    split; [|constructor; assumption].
    intros l0 ->. destruct (type e).
    + destruct Hok as [Hnone _]. discriminate.
    + destruct Hok as (l1 & r' & Hl1 & Hr' & Hle & _).
      injection Hl1 as <-. injection Hr' as <-. lia.
    + discriminate.
Qed.

(** X10. Along the history of a reachable state the readings never
    decrease, and [lastOdometer], when set, is at least every reading the
    history carries. *)
Theorem reachable_readings_sorted :
  forall s,
    reachable s ->
    StronglySorted Z.le (readingsOf (history s))
    /\ forall l, lastOdometer s = Some l ->
         Forall (fun r => r <= l) (readingsOf (history s)).
Proof.
  intros s Hs. pose proof (reachable_chained s Hs) as Hc.
  split; [exact (chainedFrom_sorted None _ Hc)|].
  intros l Hl. apply (chainedFrom_bound None _ l Hc).
  rewrite lastFrom_None.
  rewrite <- (consistent_odometer s (reachable_consistent s Hs)). exact Hl.
Qed.

Lemma reachable_readings_sorted_witness :
  reachable state_1227
  /\ StronglySorted Z.le (readingsOf (history state_1227))
  /\ forall l, lastOdometer state_1227 = Some l ->
       Forall (fun r => r <= l) (readingsOf (history state_1227)).
Proof.
  split; [exact worked_ledger_reachable|].
  exact (reachable_readings_sorted state_1227 worked_ledger_reachable).
Defined.

Lemma chainedFrom_Some_sum (l0 : Z) (h : list Entry) :
  chainedFrom (Some l0) h ->
  exists l, lastFrom (Some l0) h = Some l /\ sumDeltaKm h = l - l0.
Proof.
  revert l0. induction h as [|e h IH]; intros l0; simpl.
  - intros _. exists l0. split; [reflexivity|lia].
  - intros [Hok Hrest]. rewrite lastFrom_cons.
    unfold recordOk in Hok. unfold isEntry.
    destruct (type e); simpl.
    + destruct Hok as [Hnone _]. discriminate.
    + destruct Hok as (l1 & r & Hl1 & Hr & Hle & Hd). injection Hl1 as <-.
      rewrite Hr in Hrest |- *. rewrite Hd. simpl.
      destruct (IH r Hrest) as (l & Hl & Hsum). exists l. split; [exact Hl|lia].
    + rewrite Hok in Hrest |- *.
      destruct (IH l0 Hrest) as (l & Hl & Hsum). exists l. split; [exact Hl|lia].
Qed.

Lemma chainedFrom_None_sum (h : list Entry) :
  chainedFrom None h ->
  match readingsOf h with
  | [] => lastReading h = None /\ sumDeltaKm h = 0
  | r0 :: _ => exists l, lastReading h = Some l /\ sumDeltaKm h = l - r0
  end.
Proof.
  induction h as [|e h IH]; simpl.
  - intros _. split; reflexivity.
  - intros [Hok Hrest]. rewrite lastReading_cons.
    unfold recordOk in Hok. unfold isEntry.
    destruct (type e); simpl.
    + destruct Hok as [_ (r & Hr)]. rewrite Hr in Hrest |- *.
      destruct (chainedFrom_Some_sum r h Hrest) as (l & Hl & Hsum).
      exists l. split; [|lia].
      unfold lastFrom in Hl. destruct (lastReading h); exact Hl.
    + destruct Hok as (l1 & r & Hl1 & _). discriminate.
    + rewrite Hok in Hrest |- *. specialize (IH Hrest).
      destruct (readingsOf h) as [|r0 rest].
      * destruct IH as [Hnone Hsum]. rewrite Hnone. split; [reflexivity|lia].
      * destruct IH as (l & Hl & Hsum). exists l. rewrite Hl. split; [reflexivity|lia].
Qed.

(** X11. In a reachable state the differences add up to the distance on
    the odometer: the sum of [deltaKm] over all the entries of the history,
    across resets, is [lastOdometer] less the first reading of the history. *)
Theorem reachable_deltas_telescope :
  forall s l,
    reachable s ->
    lastOdometer s = Some l ->
    exists r0,
      hd_error (readingsOf (history s)) = Some r0
      /\ sumDeltaKm (history s) = l - r0.
Proof.
  intros s l Hs Hl.
  pose proof (chainedFrom_None_sum _ (reachable_chained s Hs)) as Hsum.
  rewrite (consistent_odometer s (reachable_consistent s Hs)) in Hl.
  destruct (readingsOf (history s)) as [|r0 rest].
  - destruct Hsum as [Hnone _]. congruence.
  - destruct Hsum as (l' & Hl' & Hsum). exists r0. split; [reflexivity|].
    congruence.
Qed.

Lemma reachable_deltas_telescope_witness :
  reachable state_1227
  /\ lastOdometer state_1227 = Some 1227
  /\ exists r0,
      hd_error (readingsOf (history state_1227)) = Some r0
      /\ sumDeltaKm (history state_1227) = 1227 - r0.
Proof.
  split; [exact worked_ledger_reachable|]. split; [reflexivity|].
  exact (reachable_deltas_telescope state_1227 1227 worked_ledger_reachable eq_refl).
Defined.

Lemma chainedFrom_Some_no_init (l0 : Z) (h : list Entry) :
  chainedFrom (Some l0) h -> filter isInit h = [].
Proof.
  revert l0. induction h as [|e h IH]; intros l0; simpl; [reflexivity|].
  intros [Hok Hrest]. unfold recordOk in Hok.
  change (isInit e) with (EntryType_eqb (type e) init).
  destruct (type e); simpl.
  - destruct Hok as [Hnone _]. discriminate.
  - destruct Hok as (l1 & r & _ & Hr & _). rewrite Hr in Hrest. exact (IH r Hrest).
  - rewrite Hok in Hrest. exact (IH l0 Hrest).
Qed.

Lemma chainedFrom_None_one_init (h : list Entry) :
  chainedFrom None h -> (List.length (filter isInit h) <= 1)%nat.
Proof.
  induction h as [|e h IH]; simpl; [lia|].
  intros [Hok Hrest]. unfold recordOk in Hok.
  change (isInit e) with (EntryType_eqb (type e) init).
  destruct (type e); simpl.
  - destruct Hok as [_ (r & Hr)]. rewrite Hr in Hrest.
    rewrite (chainedFrom_Some_no_init r h Hrest). simpl; lia.
  - destruct Hok as (l1 & r & Hl1 & _). discriminate.
  - rewrite Hok in Hrest. exact (IH Hrest).
Qed.

(** X12. The first-reading branch runs at most once: the history of a
    reachable state has at most one init record, and no operation unsets
    [lastOdometer] once it is set. *)
Theorem reachable_one_init :
  forall s,
    reachable s ->
    (List.length (filter isInit (history s)) <= 1)%nat
    /\ forall s' l, step s s' -> lastOdometer s = Some l ->
         exists l', lastOdometer s' = Some l'.
Proof.
  intros s Hs. pose proof (reachable_chained s Hs) as Hc.
  pose proof (reachable_consistent s Hs) as [Hids _ _ Hodo].
  split; [exact (chainedFrom_None_one_init _ Hc)|].
  intros s' l Hstep Hl.
  destruct Hstep as
    [newId now u r s db s' db' Hfresh Hrun
    |s db s' db' Hrun
    |fc tl newId now s db r db' Hfresh Hrun
    |p o s db s' db' Hrun].
  - destruct (Z.lt_ge_cases r l) as [Hlt|Hge].
    { rewrite (addMileageEntry_negative newId now u r s db l Hl Hlt) in Hrun.
      discriminate. }
    destruct (Z.eq_dec r l) as [->|Hne].
    + rewrite (addMileageEntry_zero newId now u s db l Hl) in Hrun.
      injection Hrun as <- _. exists l; reflexivity.
    + rewrite (addMileageEntry_positive newId now u r s db l Hl) in Hrun by lia.
      injection Hrun as <- _. exists r; reflexivity.
  - destruct (findLast isEntry (history s)) as [x|] eqn:Hx;
      [|rewrite (undoLastEntry_nothing s db Hx) in Hrun; discriminate].
    rewrite (undoLastEntry_found s db x Hx) in Hrun. injection Hrun as <- _.
    destruct (chained_undo (history s) x Hc Hids Hx)
      as (l1 & l2 & r & d & _ & Hfilter & _ & _ & _ & _ & Hprev & _).
    exists (r - d).
    change (lastOdometer (undoStateOf s x))
      with (lastReading (filter (fun e => negb (String.eqb (id e) (id x))) (history s))).
    rewrite Hfilter. exact Hprev.
  - destruct (resetAndGetMessage_succeeds fc tl newId now s db) as (msg & Heq).
    rewrite Heq in Hrun. injection Hrun as <- _. exists l; exact Hl.
  - unfold updateSettings in Hrun.
    destruct (Qle_bool p 0); [discriminate|].
    destruct (o <? 0); [discriminate|].
    injection Hrun as <- _. exists l; exact Hl.
Qed.

Lemma reachable_one_init_witness :
  reachable state_1227
  /\ (List.length (filter isInit (history state_1227)) <= 1)%nat.
Proof.
  split; [exact worked_ledger_reachable|].
  exact (proj1 (reachable_one_init state_1227 worked_ledger_reachable)).
Defined.

(** X13. In a reachable state undo takes the odometer back by the
    difference of the entry it removes: that entry carries the reading
    [lastOdometer] has, and [lastOdometer] becomes that reading less its
    [deltaKm], also when a reset was recorded after the entry. *)
Theorem reachable_undo_rewinds_odometer :
  forall s db s' db',
    reachable s ->
    undoLastEntry s db = (Ok s', db') ->
    exists x l d,
      findLast isEntry (history s) = Some x
      /\ reading x = Some l
      /\ deltaKm x = Some d
      /\ 0 <= d
      /\ lastOdometer s = Some l
      /\ lastOdometer s' = Some (l - d).
Proof.
  intros s db s' db' Hs Hrun.
  pose proof (reachable_chained s Hs) as Hc.
  pose proof (reachable_consistent s Hs) as [Hids _ _ Hodo].
  destruct (findLast isEntry (history s)) as [x|] eqn:Hx;
    [|rewrite (undoLastEntry_nothing s db Hx) in Hrun; discriminate].
  rewrite (undoLastEntry_found s db x Hx) in Hrun. injection Hrun as <- _.
  destruct (chained_undo (history s) x Hc Hids Hx)
    as (l1 & l2 & r & d & _ & Hfilter & Hr & Hd & Hdpos & Hlast & Hprev & _).
  exists x, r, d. split; [reflexivity|]. split; [exact Hr|]. split; [exact Hd|].
  split; [exact Hdpos|]. split; [rewrite Hodo; exact Hlast|].
  change (lastOdometer (undoStateOf s x))
    with (lastReading (filter (fun e => negb (String.eqb (id e) (id x))) (history s))).
  rewrite Hfilter. exact Hprev.
Qed.

Lemma reachable_undo_rewinds_odometer_witness :
  reachable state_1227
  /\ undoLastEntry state_1227 initialDatabase
     = (Ok (undoStateOf state_1227 entry_1227),
        snd (undoLastEntry state_1227 initialDatabase))
  /\ exists x l d,
      findLast isEntry (history state_1227) = Some x
      /\ reading x = Some l
      /\ deltaKm x = Some d
      /\ 0 <= d
      /\ lastOdometer state_1227 = Some l
      /\ lastOdometer (undoStateOf state_1227 entry_1227) = Some (l - d).
Proof.
  split; [exact worked_ledger_reachable|]. split; [reflexivity|].
  exact (reachable_undo_rewinds_odometer state_1227 initialDatabase
           (undoStateOf state_1227 entry_1227)
           (snd (undoLastEntry state_1227 initialDatabase))
           worked_ledger_reachable eq_refl).
Defined.

(** ** Operations in sequence *)

(** X14. Undo does not stop at a reset. In a reachable state with an
    entry, a reset followed by undo removes that entry, recorded before the
    reset, and keeps the reset record whose snapshot counts it: the totals
    stay 0, [lastOdometer] goes back by the difference of the entry while
    [startingOdometer] keeps the value the reset gave it. *)
Theorem undoLastEntry_after_resetAndGetMessage :
  forall formatCurrency toLocaleString newId now s db x,
    reachable s ->
    findLast isEntry (history s) = Some x ->
    ~ In newId (map id (history s)) ->
    exists r db1 s2 db2 l1 l2 l d,
      resetAndGetMessage formatCurrency toLocaleString newId now s db = (Ok r, db1)
      /\ undoLastEntry (newState r) db1 = (Ok s2, db2)
      /\ history s = l1 ++ x :: l2
      /\ history s2 = l1 ++ l2 ++ [resetEntryOf newId now s]
      /\ kmBy s2 = mkKmBy 0 0
      /\ lastOdometer s = Some l
      /\ deltaKm x = Some d
      /\ 0 <= d
      /\ lastOdometer s2 = Some (l - d)
      /\ startingOdometer s2 = l.
Proof.
  intros fc tl newId now s db x Hs Hx Hfresh.
  pose proof (reachable_chained s Hs) as Hc.
  pose proof (reachable_consistent s Hs) as [Hids _ _ Hodo].
  destruct (chained_undo (history s) x Hc Hids Hx)
    as (l1 & l2 & rd & d & Hh & Hfilter & Hr & Hd & Hdpos & Hlast & Hprev & _).
  destruct (resetAndGetMessage_succeeds fc tl newId now s db) as (msg & Hrun).
  assert (Hx' : findLast isEntry (history (resetStateOf newId now s)) = Some x).
  { simpl. rewrite findLast_app_last. simpl. exact Hx. }
  assert (Hnew : filter (fun e => negb (String.eqb (id e) (id x)))
                   (history (resetStateOf newId now s))
                 = l1 ++ l2 ++ [resetEntryOf newId now s]).
  { simpl. rewrite filter_app, Hfilter. simpl.
    destruct (String.eqb newId (id x)) eqn:Heq.
    - apply String.eqb_eq in Heq. exfalso. apply Hfresh. rewrite Heq, Hh.
      apply in_map, in_or_app. right; left; reflexivity.
    - simpl. rewrite <- app_assoc. reflexivity. }
  exists {| message := msg; newState := resetStateOf newId now s |}.
  eexists. exists (undoStateOf (resetStateOf newId now s) x). eexists.
  exists l1, l2, rd, d.
  split; [exact Hrun|].
  split; [apply undoLastEntry_found; exact Hx'|].
  split; [exact Hh|]. split; [exact Hnew|].
  split.
  { unfold undoStateOf; simpl. rewrite Hd; simpl.
    destruct (attributedTo x) as [a|]; [|reflexivity].
    destruct (0 <? d); [|reflexivity].
    destruct a; simpl; f_equal; lia. }
  split; [rewrite Hodo; exact Hlast|].
  split; [exact Hd|]. split; [exact Hdpos|].
  split.
  - change (lastOdometer (undoStateOf (resetStateOf newId now s) x))
      with (lastReading (filter (fun e => negb (String.eqb (id e) (id x)))
                           (history (resetStateOf newId now s)))).
    rewrite Hnew, app_assoc, lastReading_snoc. simpl. exact Hprev.
  - simpl. rewrite Hodo, Hlast. reflexivity.
Qed.

Lemma undoLastEntry_after_resetAndGetMessage_witness :
  reachable state_1227
  /\ findLast isEntry (history state_1227) = Some entry_1227
  /\ ~ In "5-eeeeee" (map id (history state_1227))
  /\ exists r db1 s2 db2 l1 l2 l d,
      resetAndGetMessage (fun _ => "") (fun _ => "") "5-eeeeee" 5 state_1227
        initialDatabase = (Ok r, db1)
      /\ undoLastEntry (newState r) db1 = (Ok s2, db2)
      /\ history state_1227 = l1 ++ entry_1227 :: l2
      /\ history s2 = l1 ++ l2 ++ [resetEntryOf "5-eeeeee" 5 state_1227]
      /\ kmBy s2 = mkKmBy 0 0
      /\ lastOdometer state_1227 = Some l
      /\ deltaKm entry_1227 = Some d
      /\ 0 <= d
      /\ lastOdometer s2 = Some (l - d)
      /\ startingOdometer s2 = l.
Proof.
  assert (Hfresh : ~ In "5-eeeeee" (map id (history state_1227)))
    by (simpl; intros [H|[H|[H|[]]]]; discriminate H).
  split; [exact worked_ledger_reachable|]. split; [reflexivity|].
  split; [exact Hfresh|].
  exact (undoLastEntry_after_resetAndGetMessage (fun _ => "") (fun _ => "")
           "5-eeeeee" 5 state_1227 initialDatabase entry_1227
           worked_ledger_reachable eq_refl Hfresh).
Defined.



(** ** The records of a reachable history *)

(** On the identities Amit and Ori, every record in the history of a
    reachable state has the shape of its type. *)
Lemma reachable_records_wellShaped :
  forall s, reachable s -> Forall wellShaped (history s).
Proof.
  induction 1 as [|s s' Hs IH Hstep]; [constructor|].
  pose proof (reachable_undo_conditions s Hs) as (_ & Hkm & _).
  destruct Hstep as
    [newId now u r s db s' db' Hfresh Hrun
    |s db s' db' Hrun
    |fc tl newId now s db r db' Hfresh Hrun
    |p o s db s' db' Hrun].
  - destruct (lastOdometer s) as [last|] eqn:Hlast.
    + destruct (Z.lt_ge_cases r last) as [Hlt|Hge].
      { rewrite (addMileageEntry_negative newId now u r s db last Hlast Hlt) in Hrun.
        discriminate. }
      destruct (Z.eq_dec r last) as [->|Hne].
      * rewrite (addMileageEntry_zero newId now u s db last Hlast) in Hrun.
        injection Hrun as <- _. simpl. apply Forall_app. split; [exact IH|].
        constructor; [|constructor]. unfold wellShaped; simpl.
        split; [eexists; reflexivity|]. split; [exists 0; split; [reflexivity|lia]|].
        split; [exists u; split; reflexivity|reflexivity].
      * rewrite (addMileageEntry_positive newId now u r s db last Hlast) in Hrun by lia.
        injection Hrun as <- _. simpl. apply Forall_app. split; [exact IH|].
        constructor; [|constructor]. unfold wellShaped; simpl.
        split; [eexists; reflexivity|].
        split; [exists (r - last); split; [reflexivity|lia]|].
        split; [exists u; split; reflexivity|reflexivity].
    + rewrite (addMileageEntry_first newId now u r s db Hlast) in Hrun.
      injection Hrun as <- _. simpl. apply Forall_app. split; [exact IH|].
      constructor; [|constructor]. unfold wellShaped; simpl.
      split; [eexists; reflexivity|]. split; [reflexivity|]. split; [reflexivity|].
      split; [eexists; reflexivity|reflexivity].
  - destruct (findLast isEntry (history s)) as [x|] eqn:Hx;
      [|rewrite (undoLastEntry_nothing s db Hx) in Hrun; discriminate].
    rewrite (undoLastEntry_found s db x Hx) in Hrun. injection Hrun as <- _.
    simpl. apply Forall_forall. intros y Hy. apply filter_In in Hy as [Hy _].
    exact (proj1 (Forall_forall _ _) IH y Hy).
  - destruct (resetAndGetMessage_succeeds fc tl newId now s db) as (msg & Heq).
    rewrite Heq in Hrun. injection Hrun as <- _. simpl.
    apply Forall_app. split; [exact IH|].
    constructor; [|constructor]. unfold wellShaped; simpl.
    repeat (split; [reflexivity|]).
    eexists. split; [reflexivity|]. simpl. split; [exact Hkm|]. split; reflexivity.
  - unfold updateSettings in Hrun.
    destruct (Qle_bool p 0); [discriminate|].
    destruct (o <? 0); [discriminate|].
    injection Hrun as <- _. exact IH.
Qed.

(** X17. Every record in a history of the local page has the shape of
    its type: an init record carries a reading and no credit; an entry
    carries a reading, a difference that is not negative and is attributed to
    the other user than the one who entered it; a reset carries only its
    snapshot, whose totals are not negative and whose [totalKm] and
    [totalAmount] are their sum and that sum times the price of the
    snapshot. *)
Theorem localReachable_records_wellShaped :
  forall s, localReachable s -> Forall wellShaped (history s).
Proof.
  intros s Hs.
  exact (reachable_records_wellShaped s (localReachable_reachable s Hs)).
Qed.

Lemma localReachable_records_wellShaped_witness :
  localReachable state_1227 /\ Forall wellShaped (history state_1227).
Proof.
  split; [exact worked_ledger_localReachable|].
  exact (localReachable_records_wellShaped state_1227 worked_ledger_localReachable).
Defined.

(** ** Undoing every entry *)

Lemma readingsOf_app (l1 l2 : list Entry) :
  readingsOf (l1 ++ l2) = readingsOf l1 ++ readingsOf l2.
Proof.
  induction l1 as [|e l1 IH]; simpl; [reflexivity|].
  destruct (reading e); rewrite IH; reflexivity.
Qed.

Lemma readingsOf_In (h : list Entry) (e : Entry) (r : Z) :
  In e h -> reading e = Some r -> In r (readingsOf h).
Proof.
  induction h as [|y h IH]; simpl; [tauto|].
  intros [->|Hin] Hr.
  - rewrite Hr. left; reflexivity.
  - destruct (reading y); [right|]; exact (IH Hin Hr).
Qed.

Lemma chained_undo_first (h : list Entry) (x : Entry) :
  chainedFrom None h ->
  NoDup (map id h) ->
  findLast isEntry h = Some x ->
  hd_error (readingsOf (filter (fun e => negb (String.eqb (id e) (id x))) h))
  = hd_error (readingsOf h)
  /\ S (List.length
          (filter isEntry (filter (fun e => negb (String.eqb (id e) (id x))) h)))
     = List.length (filter isEntry h).
Proof.
  intros Hc Hnd Hx.
  destruct (findLast_Some _ _ _ Hx) as (l1 & l2 & Hh & Hpx & Hl2). subst h.
  rewrite (filter_id_NoDup l1 l2 x Hnd).
  apply chainedFrom_app in Hc as [_ Hc2]. simpl in Hc2. destruct Hc2 as [Hok _].
  unfold recordOk in Hok. rewrite (proj1 (isEntry_type x) Hpx) in Hok.
  destruct Hok as (l & r & Hl & _). rewrite lastFrom_None in Hl.
  destruct (lastReading_In _ _ Hl) as (e & He & Hre).
  pose proof (readingsOf_In l1 e l He Hre) as Hin.
  split.
  - rewrite !readingsOf_app.
    destruct (readingsOf l1) as [|r1 rest]; [destruct Hin|reflexivity].
  - rewrite !filter_app. simpl. rewrite Hpx. rewrite !length_app. simpl. lia.
Qed.

Lemma sumDeltaKm_no_entry (l : list Entry) :
  (forall e, In e l -> isEntry e = false) -> sumDeltaKm l = 0.
Proof.
  induction l as [|e l IH]; simpl; [reflexivity|]. intros Hall.
  rewrite (Hall e (or_introl eq_refl)), IH; [reflexivity|].
  intros y Hy; apply Hall; right; exact Hy.
Qed.

Lemma filter_nil_all {A} (p : A -> bool) (l : list A) :
  filter p l = [] -> forall x, In x l -> p x = false.
Proof.
  induction l as [|y l IH]; simpl; [intros _ x []|].
  destruct (p y) eqn:Hy; [discriminate|].
  intros Hnil x [<-|Hx]; [exact Hy|exact (IH Hnil x Hx)].
Qed.

(** X18. Undo can be repeated as many times as the history has entries,
    and no more. From a reachable state that many calls of [undoLastEntry]
    all succeed; they leave a history with no entry and [lastOdometer] at
    the first reading of the history, and the next call fails with
    NothingToUndo. *)
Theorem reachable_undo_all :
  forall s db,
    reachable s ->
    exists s' db',
      undoTimes (List.length (filter isEntry (history s))) s db = (Ok s', db')
      /\ (forall e, In e (history s') -> type e <> entry)
      /\ lastOdometer s' = hd_error (readingsOf (history s))
      /\ undoLastEntry s' db'
         = (Err (mkError NothingToUndo "No entry to undo"), db').
Proof.
  intros s db Hs.
  remember (List.length (filter isEntry (history s))) as n eqn:Hn.
  revert s db Hs Hn. induction n as [|k IH]; intros s db Hs Hn.
  - assert (Hnone : forall e, In e (history s) -> isEntry e = false).
    { apply filter_nil_all. destruct (filter isEntry (history s)); [reflexivity|].
      discriminate. }
    pose proof (reachable_consistent s Hs) as [_ _ _ Hodo].
    exists s, db. split; [reflexivity|].
    split; [intros e He; apply isEntry_false_type, Hnone, He|].
    split.
    { rewrite Hodo.
      pose proof (chainedFrom_None_sum _ (reachable_chained s Hs)) as Hsum.
      destruct (readingsOf (history s)) as [|r0 rest].
      - destruct Hsum as [Hl _]. exact Hl.
      - destruct Hsum as (l & Hl & Hsum).
        rewrite (sumDeltaKm_no_entry _ Hnone) in Hsum.
        rewrite Hl. simpl. f_equal. lia. }
    apply undoLastEntry_nothing. apply findLast_None. exact Hnone.
  - destruct (findLast isEntry (history s)) as [x|] eqn:Hx.
    + pose proof (reachable_consistent s Hs) as [Hids _ _ _].
      destruct (chained_undo_first (history s) x (reachable_chained s Hs) Hids Hx)
        as [Hfirst Hcount].
      pose proof (undoLastEntry_found s db x Hx) as Hrun.
      assert (Hs1 : reachable (undoStateOf s x))
        by exact (reachable_step s _ Hs (step_undoLastEntry _ _ _ _ Hrun)).
      destruct (IH (undoStateOf s x)
                  (snd (saveAppState (undoStateOf s x) (snd (removeEntry (id x) db))))
                  Hs1)
        as (s' & db' & Hrun' & Hno & Hlast & Hfail).
      { simpl. rewrite <- Hcount in Hn. injection Hn as Hn. exact Hn. }
      exists s', db'. simpl. rewrite Hrun.
      split; [exact Hrun'|]. split; [exact Hno|].
      split; [|exact Hfail].
      rewrite Hlast. exact Hfirst.
    + exfalso. pose proof (proj1 (findLast_None _ _) Hx) as Hnone.
      destruct (filter isEntry (history s)) as [|y rest] eqn:Hf; [discriminate|].
      assert (Hy : In y (filter isEntry (history s))) by (rewrite Hf; left; reflexivity).
      apply filter_In in Hy as [Hy Hpy]. rewrite (Hnone y Hy) in Hpy. discriminate.
Qed.

Lemma reachable_undo_all_witness :
  reachable state_1227
  /\ exists s' db',
      undoTimes (List.length (filter isEntry (history state_1227))) state_1227
        initialDatabase = (Ok s', db')
      /\ (forall e, In e (history s') -> type e <> entry)
      /\ lastOdometer s' = hd_error (readingsOf (history state_1227))
      /\ undoLastEntry s' db'
         = (Err (mkError NothingToUndo "No entry to undo"), db').
Proof.
  split; [exact worked_ledger_reachable|].
  exact (reachable_undo_all state_1227 initialDatabase worked_ledger_reachable).
Defined.

(** ** The local page against the server actions *)

(** X19. The page that keeps the ledger in local storage records a
    reading as [addMileageEntry] does: for a reading that is not negative its
    new state is the state the action returns, and the state it had when the
    action fails; a negative reading changes nothing. *)
Theorem LocalPage_addMileage_refines :
  forall newId now u r prev db,
    LocalPage.addMileage newId now (Some u) r prev
    = if r <? 0 then prev
      else match fst (addMileageEntry newId now u r prev db) with
           | Ok s' => s'
           | Err _ => prev
           end.
Proof.
  intros newId now u r prev db.
  unfold LocalPage.addMileage, addMileageEntry.
  destruct (r <? 0); [reflexivity|].
  destruct (lastOdometer prev) as [last|]; [|reflexivity].
  destruct (r - last <? 0); [reflexivity|].
  destruct (r - last =? 0); reflexivity.
Qed.

(** X20. The local page undoes as [undoLastEntry] does when the
    identifiers of the history are pairwise distinct: it removes the first
    record that carries the identifier of the last entry, the action every
    record that carries it. *)
Theorem LocalPage_undoLast_refines :
  forall prev db,
    NoDup (map id (history prev)) ->
    LocalPage.undoLast prev
    = match fst (undoLastEntry prev db) with
      | Ok s' => s'
      | Err _ => prev
      end.
Proof.
  intros prev db Hnd. unfold LocalPage.undoLast.
  destruct (findLast isEntry (history prev)) as [x|] eqn:Hx.
  - rewrite (undoLastEntry_found prev db x Hx); simpl.
    destruct (findLast_Some _ _ _ Hx) as (l1 & l2 & Hh & _ & _).
    unfold undoStateOf, lastReading.
    rewrite Hh in Hnd |- *.
    rewrite (removeFirstWithId_NoDup l1 l2 x Hnd), (filter_id_NoDup l1 l2 x Hnd).
    reflexivity.
  - rewrite (undoLastEntry_nothing prev db Hx). reflexivity.
Qed.

Lemma LocalPage_undoLast_refines_witness :
  NoDup (map id (history state_1227))
  /\ LocalPage.undoLast state_1227
     = match fst (undoLastEntry state_1227 initialDatabase) with
       | Ok s' => s'
       | Err _ => state_1227
       end.
Proof.
  split; [exact worked_ledger_ids|].
  exact (LocalPage_undoLast_refines state_1227 initialDatabase worked_ledger_ids).
Defined.

(** With a repeated identifier the two differ: the local page keeps the
    later record that carries it. *)
Example LocalPage_undoLast_repeated_id :
  let prev := withHistory state_1227
                [entry_1000; entry_1180;
                 {| id := "2-bbbbbb"; type := entry; timestamp := 3;
                    reading := Some 1227; deltaKm := Some 47;
                    attributedTo := Some Ori; enteredBy := Some Amit;
                    note := None; snapshot := None |}] in
  List.length (history (LocalPage.undoLast prev)) = 2%nat
  /\ exists s' db',
      undoLastEntry prev initialDatabase = (Ok s', db')
      /\ history s' = [entry_1000].
Proof.
  split; [reflexivity|]. eexists; eexists. split; [cbv; reflexivity|reflexivity].
Qed.

(** X21. The local page resets as [resetAndGetMessage] does: the message
    it shares and the state it sets are the message and the state the action
    returns. *)
Theorem LocalPage_doResetAndShare_refines :
  forall formatCurrency toLocaleString newId now prev db,
    exists r db',
      resetAndGetMessage formatCurrency toLocaleString newId now prev db = (Ok r, db')
      /\ LocalPage.doResetAndShare formatCurrency toLocaleString newId now prev
         = (message r, newState r).
Proof.
  intros fc tl newId now prev db. eexists; eexists. split; reflexivity.
Qed.

(** X22. For a price and a starting odometer that are numbers, the local
    page saves settings as [updateSettings] does: its new state is the state
    the action returns, and the state it had when the action throws. *)
Theorem LocalPage_saveSettings_refines :
  forall p o prev db,
    LocalPage.saveSettings p o prev
    = match fst (updateSettings p o prev db) with
      | Ok s' => s'
      | Err _ => prev
      end.
Proof.
  intros p o prev db. unfold LocalPage.saveSettings, updateSettings.
  destruct (Qle_bool p 0); [reflexivity|].
  destruct (o <? 0); reflexivity.
Qed.

(** ** The local page: totals, attribution and the settlement message

    The page that keeps the ledger in local storage names the two users
    Amit and Ori throughout, as the actions do. *)



(** X24. On the local page a reading that is not negative and above the
    last odometer appends an entry attributed to [OTHER sessionUser], never
    to the submitter; the difference is added to the total of that other
    user and the total of the submitter is left as it was. *)
Theorem LocalPage_addMileage_credits_other :
  forall newId now u r s last,
    lastOdometer s = Some last -> 0 < r - last -> 0 <= r ->
    exists e,
      history (LocalPage.addMileage newId now (Some u) r s) = history s ++ [e]
      /\ id e = newId
      /\ type e = entry
      /\ reading e = Some r
      /\ enteredBy e = Some u
      /\ attributedTo e = Some (OTHER u)
      /\ attributedTo e <> Some u
      /\ deltaKm e = Some (r - last)
      /\ kmOf (kmBy (LocalPage.addMileage newId now (Some u) r s)) (OTHER u)
         = kmOf (kmBy s) (OTHER u) + (r - last)
      /\ kmOf (kmBy (LocalPage.addMileage newId now (Some u) r s)) u
         = kmOf (kmBy s) u.
Proof.
  intros newId now u r s last Hlast Hpos Hr.
  unfold LocalPage.addMileage. rewrite Hlast.
  destruct (r <? 0) eqn:Hr0; [apply Z.ltb_lt in Hr0; lia|].
  destruct (r - last <? 0) eqn:Hneg; [apply Z.ltb_lt in Hneg; lia|].
  destruct (r - last =? 0) eqn:Hz; [apply Z.eqb_eq in Hz; lia|].
  eexists. split; [reflexivity|]. simpl. repeat split.
  - intros H; injection H; apply OTHER_neq.
  - apply kmOf_kmSet_same.
  - apply kmOf_kmSet_other, OTHER_neq.
Qed.

Lemma LocalPage_addMileage_credits_other_witness :
  lastOdometer state_1000 = Some 1000 /\ 0 < 1180 - 1000 /\ 0 <= 1180
  /\ exists e,
      history (LocalPage.addMileage "2-bbbbbb" 2 (Some Ori) 1180 state_1000)
      = history state_1000 ++ [e]
      /\ id e = "2-bbbbbb"
      /\ type e = entry
      /\ reading e = Some 1180
      /\ enteredBy e = Some Ori
      /\ attributedTo e = Some (OTHER Ori)
      /\ attributedTo e <> Some Ori
      /\ deltaKm e = Some (1180 - 1000)
      /\ kmOf (kmBy (LocalPage.addMileage "2-bbbbbb" 2 (Some Ori) 1180 state_1000))
              (OTHER Ori)
         = kmOf (kmBy state_1000) (OTHER Ori) + (1180 - 1000)
      /\ kmOf (kmBy (LocalPage.addMileage "2-bbbbbb" 2 (Some Ori) 1180 state_1000)) Ori
         = kmOf (kmBy state_1000) Ori.
Proof.
  split; [reflexivity|]. split; [reflexivity|]. split; [discriminate|].
  exact (LocalPage_addMileage_credits_other "2-bbbbbb" 2 Ori 1180 state_1000 1000
           eq_refl eq_refl ltac:(discriminate)).
Defined.

(** X25. The reset of the local page appends a reset entry whose snapshot
    holds the totals and the price of the state before the reset, with
    [totalKm = kmBy.Amit + kmBy.Ori] and [totalAmount = totalKm * pricePerKm];
    in the new state both totals are 0. *)
Theorem LocalPage_doResetAndShare_snapshot :
  forall formatCurrency toLocaleString newId now s,
    exists e snap,
      history (snd (LocalPage.doResetAndShare formatCurrency toLocaleString newId now s))
      = history s ++ [e]
      /\ id e = newId
      /\ type e = reset
      /\ snapshot e = Some snap
      /\ snap_kmBy snap = kmBy s
      /\ snap_pricePerKm snap = pricePerKm s
      /\ snap_totalKm snap = kmOf (kmBy s) Amit + kmOf (kmBy s) Ori
      /\ snap_totalAmount snap
         = (inject_Z (kmOf (kmBy s) Amit + kmOf (kmBy s) Ori) * pricePerKm s)%Q
      /\ kmBy (snd (LocalPage.doResetAndShare formatCurrency toLocaleString newId now s))
         = mkKmBy 0 0.
Proof.
  intros fc tl newId now s. eexists; eexists. split; [reflexivity|].
  simpl. repeat split.
Qed.


